(** * WebScraper: a shallow embedding of [web_scraper.py]

    The class [WebScraper] is embedded function by function.  Python
    strings are lists of Unicode code points, dictionaries are finite maps,
    and everything the class obtains from outside the repository (the
    network, the clock, the HTML parser, [urljoin]) is an oracle of the
    environment record [Env].  Methods that touch the instance state or
    the outside world run in a small state-and-exception monad. *)

From Stdlib Require Import QArith Lqa Ascii String.
From stdpp Require Import gmap list strings.

Local Open Scope nat_scope.
Set Warnings "-register-all".

(** ** Strings *)

Module Str.

(** A Python [str]: a sequence of code points. *)
Definition char : Type := N.
Definition str : Type := list char.

(** A string literal of the source, code point by code point. *)
Definition lit (s : string) : str :=
  map N_of_ascii (String.list_ascii_of_string s).

(** [str.isspace] on one code point: the characters that [str.strip()] and
    [str.split()] treat as whitespace. *)
Definition is_space (c : char) : bool :=
  ((9 <=? c) && (c <=? 13) || (28 <=? c) && (c <=? 32)
   || (c =? 133) || (c =? 160) || (c =? 5760)
   || (8192 <=? c) && (c <=? 8202)
   || (c =? 8232) || (c =? 8233) || (c =? 8239) || (c =? 8287)
   || (c =? 12288))%N.

Fixpoint lstrip (s : str) : str :=
  match s with
  | c :: s' => if is_space c then lstrip s' else s
  | [] => []
  end.

(** [s.strip()] *)
Definition strip (s : str) : str := rev (lstrip (rev (lstrip s))).

(** [s.split()]: the maximal runs of non-whitespace characters. [cur] is the
    run being read. *)
Fixpoint split_ws_go (cur : str) (s : str) : list str :=
  match s with
  | [] => match cur with [] => [] | _ => [cur] end
  | c :: s' =>
      if is_space c
      then match cur with
           | [] => split_ws_go [] s'
           | _ => cur :: split_ws_go [] s'
           end
      else split_ws_go (cur ++ [c]) s'
  end.

Definition split_ws (s : str) : list str := split_ws_go [] s.

Fixpoint starts_with (p s : str) : bool :=
  match p, s with
  | [], _ => true
  | a :: p', b :: s' => (a =? b)%N && starts_with p' s'
  | _ :: _, [] => false
  end.

(** [s.split(sep)] for a non-empty [sep]: scan left to right, cut at every
    occurrence of [sep] that does not overlap the previous one.  [cur] is
    the segment being read; every step consumes at least one character, so
    [length s] steps are enough. *)
Fixpoint split_go (fuel : nat) (sep cur s : str) : list str :=
  match fuel with
  | O => [cur ++ s]
  | S fuel' =>
      match s with
      | [] => [cur]
      | c :: s' =>
          if starts_with sep s
          then cur :: split_go fuel' sep [] (drop (length sep) s)
          else split_go fuel' sep (cur ++ [c]) s'
      end
  end.

Definition split (sep s : str) : list str := split_go (length s) sep [] s.

(** [sep.join(parts)] *)
Fixpoint join (sep : str) (parts : list str) : str :=
  match parts with
  | [] => []
  | [p] => p
  | p :: rest => p ++ sep ++ join sep rest
  end.

End Str.
Import Str.

(** ** Summarization *)

(** [summarize_text]:
    [sentences = text.split(". ")];
    [". ".join(sentences[:3]) + "..." if len(sentences) > 3 else text]. *)
Definition summarize_text (text : str) : str :=
  let sentences := split (lit ". ") text in
  if 3 <? length sentences
  then join (lit ". ") (take 3 sentences) ++ lit "..."
  else text.

(** ** URL splitting

    A model of the standard library's [urllib.parse.urlparse], restricted to
    the two components the scraper reads, [scheme] and [netloc]; the
    remainder (path, parameters, query, fragment) is kept unsplit.  The
    model covers the URLs the library accepts: its [ValueError], for a
    malformed bracketed host or an authority that changes under NFKC
    normalization, is not represented, and a statement about a method that
    parses its URL outside any handler ([can_fetch], [respect_rate_limit],
    the compiling loop of [search_and_scrape]) speaks of accepted URLs.  The
    predicate [plain] below is a sufficient condition for acceptance. *)

Module Url.

Record ParseResult := { scheme : str; netloc : str; rest : str }.

Definition is_alpha (c : char) : bool :=
  ((65 <=? c) && (c <=? 90) || (97 <=? c) && (c <=? 122))%N.

Definition is_digit (c : char) : bool := ((48 <=? c) && (c <=? 57))%N.

(** Membership in [scheme_chars]: letters, digits and [+-.]. *)
Definition is_scheme_char (c : char) : bool :=
  (is_alpha c || is_digit c || (c =? 43) || (c =? 45) || (c =? 46))%N.

Definition lower (c : char) : char :=
  if ((65 <=? c) && (c <=? 90))%N then (c + 32)%N else c.

(** Leading C0 control characters and spaces are stripped. *)
Fixpoint lstrip_c0 (s : str) : str :=
  match s with
  | c :: s' => if (c <=? 32)%N then lstrip_c0 s' else s
  | [] => []
  end.

(** Tab, line feed and carriage return are removed wherever they occur. *)
Definition is_unsafe (c : char) : bool :=
  ((c =? 9) || (c =? 10) || (c =? 13))%N.

(** [s.find(c)] *)
Fixpoint find_char (c : char) (s : str) : option nat :=
  match s with
  | [] => None
  | d :: s' => if (d =? c)%N then Some 0 else S <$> find_char c s'
  end.

(** The authority ends at the first of [/], [?], [#]. *)
Definition is_delim (c : char) : bool :=
  ((c =? 47) || (c =? 63) || (c =? 35))%N.

Fixpoint splitnetloc (s : str) : str * str :=
  match s with
  | [] => ([], [])
  | c :: s' =>
      if is_delim c then ([], s)
      else let '(n, r) := splitnetloc s' in (c :: n, r)
  end.

Definition split_scheme (url : str) : str * str :=
  match find_char 58%N url with
  | Some (S i) =>
      if match url with c :: _ => is_alpha c | [] => false end
         && forallb is_scheme_char (take (S i) url)
      then (map lower (take (S i) url), drop (S (S i)) url)
      else ([], url)
  | _ => ([], url)
  end.

Definition urlparse (url : str) : ParseResult :=
  let url := List.filter (fun c => negb (is_unsafe c)) (lstrip_c0 url) in
  let '(sch, url) := split_scheme url in
  if bool_decide (take 2 url = lit "//")
  then let '(n, r) := splitnetloc (drop 2 url) in
       {| scheme := sch; netloc := n; rest := r |}
  else {| scheme := sch; netloc := []; rest := url |}.

(** URLs of the shape [scheme://authority] followed by nothing or by a
    path, query or fragment. *)
Definition make_url (sch authority tail : str) : str :=
  sch ++ lit "://" ++ authority ++ tail.

Definition valid_scheme (sch : str) : bool :=
  match sch with
  | c :: _ => is_alpha c && forallb is_scheme_char sch
  | [] => false
  end.

Definition valid_authority (a : str) : bool :=
  forallb (fun c => negb (is_delim c) && negb (is_unsafe c)) a.

Definition valid_tail (t : str) : bool :=
  match t with
  | c :: _ => is_delim c
  | [] => true
  end.

End Url.
Import Url.

(** ** The document tree

    What [BeautifulSoup(html, "html.parser")] hands to the scraper: a tree
    of tags and strings.  Parsing itself is an oracle of the environment;
    the navigation methods the scraper calls are embedded here. *)

Module Soup.

Inductive node :=
| NavigableString (s : str)
    (** text, which [get_text] collects *)
| Comment (s : str)
    (** a comment, doctype or other string that [get_text] skips *)
| Tag (name : str) (attrs : list (str * str)) (contents : list node).

(** The attribute dictionary of a tag: the first binding of a key counts. *)
Fixpoint attr_get (attrs : list (str * str)) (key : str) : option str :=
  match attrs with
  | [] => None
  | (k, v) :: attrs' => if bool_decide (k = key) then Some v else attr_get attrs' key
  end.

Definition tag_attrs (n : node) : list (str * str) :=
  match n with Tag _ a _ => a | _ => [] end.

Definition is_tag_named (nm : str) (n : node) : bool :=
  match n with Tag m _ _ => bool_decide (m = nm) | _ => false end.

(** [n.descendants]: every node below [n], in document order. *)
Fixpoint descendants (n : node) : list node :=
  match n with
  | Tag _ _ cs => flat_map (fun c => c :: descendants c) cs
  | _ => []
  end.

(** [n.find_all(nm)] and [n.find(nm)]: the tags named [nm] among the
    descendants, and the first of them. *)
Definition find_all (nm : str) (n : node) : list node :=
  List.filter (is_tag_named nm) (descendants n).

Definition find (nm : str) (n : node) : option node :=
  head (find_all nm n).

(** [n.find(nm, attrs={key: value})] *)
Definition has_attr_value (key value : str) (n : node) : bool :=
  bool_decide (attr_get (tag_attrs n) key = Some value).

Definition find_with_attr (nm key value : str) (n : node) : option node :=
  head (List.filter (fun d => is_tag_named nm d && has_attr_value key value d)
                    (descendants n)).

(** [n.find_all(nm, href=True)]: the tags named [nm] that carry the
    attribute, paired with its value. *)
Definition find_all_having (nm key : str) (n : node) : list str :=
  omap (fun d => if is_tag_named nm d then attr_get (tag_attrs d) key else None)
       (descendants n).

(** [n.get_text()] *)
Fixpoint get_text (n : node) : str :=
  match n with
  | NavigableString s => s
  | Comment _ => []
  | Tag _ _ cs => flat_map get_text cs
  end.

(** [n.string]: the single string below [n], if there is exactly one path
    of only children down to it; Python's [None] otherwise. *)
Fixpoint string_of (n : node) : option str :=
  match n with
  | Tag _ _ [c] =>
      match c with
      | NavigableString s | Comment s => Some s
      | Tag _ _ _ => string_of c
      end
  | _ => None
  end.

(** The effect of [for element in soup(names): element.decompose()]: every
    tag with one of the names is gone, together with what it contains. *)
Fixpoint decompose_all (names : list str) (n : node) : node :=
  match n with
  | Tag nm a cs =>
      Tag nm a (flat_map (fun c => if existsb (fun x => is_tag_named x c) names
                                   then []
                                   else [decompose_all names c]) cs)
  | _ => n
  end.

(** [n] is the first tag named [nm] below [doc], in document order. *)
Definition first_named (nm : str) (doc n : node) : Prop :=
  exists before after,
    descendants doc = before ++ n :: after
    /\ is_tag_named nm n = true
    /\ Forall (fun d => is_tag_named nm d = false) before.

(** No tag below [doc] is named [nm]. *)
Definition absent (nm : str) (doc : node) : Prop :=
  Forall (fun d => is_tag_named nm d = false) (descendants doc).

End Soup.
Import Soup.

(** ** The outside world and the instance state *)

(** What an external call does: return a value or throw. *)
Inductive ext (A : Type) := Returns (a : A) | Throws.
Arguments Returns {A} a.
Arguments Throws {A}.

(** The outcome of [requests.get(...)] followed by [raise_for_status()], as
    far as the retry loop tells them apart: a response with its status code
    and text, or a [requests.RequestException] from the request itself. *)
Inductive http_result :=
| Response (status : N) (text : str)
| RequestException.

(** [raise_for_status] throws [HTTPError] for the 4xx and 5xx codes. *)
Definition raise_for_status (status : N) : bool :=
  ((400 <=? status) && (status <? 600))%N.

(** Calls that leave the process, in the order they happen.  The two call
    sites of [time.sleep] have an event each. *)
Inductive event :=
| ERobotsRead (robots_url : str)
| ERateSleep (secs : Q)
| EGet (url : str)
| EBackoffSleep (secs : Z)
| ERender (url : str).

(** The environment answers from the history of calls so far, so a server
    may answer differently each time. *)
Record Env := {
  (** the reading of the k-th call of [time.time()] *)
  time_time : nat -> Q;
  (** [rp.read()] on the robots document *)
  robots_read : list event -> str -> ext unit;
  (** [rp.can_fetch(user_agent, url)] on the rules just read *)
  robots_can_fetch : list event -> str -> str -> str -> ext bool;
  (** [requests.get(url, headers=..., timeout=...)] *)
  requests_get : list event -> str -> str -> http_result;
  (** the Playwright session of [fetch_js_page]: the rendered page, or
      [None] when anything inside its [try] throws *)
  render : list event -> str -> str -> option str;
  (** [BeautifulSoup(html, "html.parser")]: the children of the document *)
  html_parser : str -> list node;
  (** [urljoin(base, href)] on arguments the library accepts; it raises
      [ValueError] where [urlparse] does *)
  urljoin : str -> str -> str;
}.

(** The attributes of the instance that the constructor fixes. *)
Record WebScraper := {
  user_agent : str;
  rate_limit : Q;
  timeout : Q;
  max_retries : nat;
  summarize_content : bool;
  enable_js : bool;
}.

(** [__init__]: JavaScript rendering is on only when Playwright imports. *)
Definition init (ua : str) (rl tmo : Q) (retries : nat)
    (js summarize playwright_installed : bool) : WebScraper :=
  {| user_agent := ua; rate_limit := rl; timeout := tmo;
     max_retries := retries; summarize_content := summarize;
     enable_js := js && playwright_installed |}.

(** The mutable part: [self.last_request_time], the number of clock
    readings taken, and the history of external calls. *)
Record State := {
  last_request_time : gmap str Q;
  clock_reads : nat;
  trace : list event;
}.

Definition initial_state : State :=
  {| last_request_time := ∅; clock_reads := 0; trace := [] |}.

(** Exceptions that the class itself lets escape. *)
Inductive exn := KeyError (key : str).

Inductive outcome (A : Type) := Ret (a : A) | Raise (e : exn).
Arguments Ret {A} a.
Arguments Raise {A} e.

(** State and exceptions. *)
Definition M (A : Type) : Type := State -> outcome A * State.

#[global] Instance M_ret : MRet M := fun A a st => (Ret a, st).
#[global] Instance M_bind : MBind M := fun A B f m st =>
  match m st with
  | (Ret a, st') => f a st'
  | (Raise e, st') => (Raise e, st')
  end.

Definition raise {A} (e : exn) : M A := fun st => (Raise e, st).
Definition lift {A} (o : outcome A) : M A := fun st => (o, st).
Definition get_trace : M (list event) := fun st => (Ret (trace st), st).
Definition emit (e : event) : M unit := fun st =>
  (Ret (), {| last_request_time := last_request_time st;
              clock_reads := clock_reads st;
              trace := trace st ++ [e] |}).
Definition get_table : M (gmap str Q) := fun st => (Ret (last_request_time st), st).
Definition set_entry (k : str) (v : Q) : M unit := fun st =>
  (Ret (), {| last_request_time := <[k := v]> (last_request_time st);
              clock_reads := clock_reads st;
              trace := trace st |}).
(** [time.time()] *)
Definition read_clock (env : Env) : M Q := fun st =>
  (Ret (time_time env (clock_reads st)),
   {| last_request_time := last_request_time st;
      clock_reads := S (clock_reads st);
      trace := trace st |}).

Definition Qlt_b (x y : Q) : bool := negb (Qle_bool y x).

(** ** The methods of [WebScraper] *)

(** [f"{parsed_url.scheme}://{parsed_url.netloc}/robots.txt"] *)
Definition robots_url_of (url : str) : str :=
  let parsed_url := urlparse url in
  scheme parsed_url ++ lit "://" ++ netloc parsed_url ++ lit "/robots.txt".

(** A request that ends in the [except] branch of [fetch_page]. *)
Definition request_fails (r : http_result) : bool :=
  match r with
  | Response status _ => raise_for_status status
  | RequestException => true
  end.

Definition is_rate_sleep (e : event) : bool :=
  match e with ERateSleep _ => true | _ => false end.

(** The history without the waits of the rate limiter. *)
Definition without_rate_sleeps (h : list event) : list event :=
  List.filter (fun e => negb (is_rate_sleep e)) h.

Section Methods.
Context (self : WebScraper) (env : Env).

(** [can_fetch]: the robots URL is built from the parsed scheme and netloc;
    an exception from reading or from querying the rules is answered with
    [True]. *)
Definition can_fetch (url : str) : M bool :=
  let robots_url := robots_url_of url in
  h ← get_trace;
  emit (ERobotsRead robots_url);;
  match robots_read env h robots_url with
  | Throws => mret true
  | Returns _ =>
      match robots_can_fetch env h robots_url (user_agent self) url with
      | Throws => mret true
      | Returns allowed => mret allowed
      end
  end.

(** [respect_rate_limit] *)
Definition respect_rate_limit (url : str) : M unit :=
  let domain := netloc (urlparse url) in
  current_time ← read_clock env;
  table ← get_table;
  match table !! domain with
  | Some last =>
      let elapsed_time := (current_time - last)%Q in
      if Qlt_b elapsed_time (rate_limit self)
      then emit (ERateSleep (rate_limit self - elapsed_time)%Q)
      else mret ()
  | None => mret ()
  end;;
  now ← read_clock env;
  set_entry domain now.

(** The body of the loop of [fetch_page], over the attempts still to run. *)
Fixpoint fetch_attempts (url : str) (attempts : list nat) : M (option str) :=
  match attempts with
  | [] => mret None
  | attempt :: later =>
      respect_rate_limit url;;
      h ← get_trace;
      emit (EGet url);;
      match requests_get env h url (user_agent self) with
      | Response status text =>
          if raise_for_status status
          then emit (EBackoffSleep (2 ^ Z.of_nat attempt));; fetch_attempts url later
          else mret (Some text)
      | RequestException =>
          emit (EBackoffSleep (2 ^ Z.of_nat attempt));; fetch_attempts url later
      end
  end.

(** [fetch_page]: [for attempt in range(self.max_retries)], then [None]. *)
Definition fetch_page (url : str) : M (option str) :=
  fetch_attempts url (seq 0 (max_retries self)).

(** [fetch_js_page] *)
Definition fetch_js_page (url : str) : M (option str) :=
  if negb (enable_js self) then mret None
  else
    h ← get_trace;
    emit (ERender url);;
    mret (render env h url (user_agent self)).

End Methods.

(** ** Extraction and orchestration *)

(** The dictionary a scrape returns.  [title] holds the value under the key
    (Python's [None] when the title has no single string); [description]
    and [keywords] are [None] when the key is absent, as in the two
    sentinel dictionaries.  [links] is [list(set(...))]: a list without
    repetitions in the iteration order of a Python set, embedded as the set
    of its elements. *)
Record FetchResult := {
  title : option str;
  description : option str;
  keywords : option str;
  content : str;
  links : gset str;
}.

Definition sentinel (text : str) : FetchResult :=
  {| title := Some (lit "No Title"); description := None; keywords := None;
     content := text; links := ∅ |}.

#[global] Instance outcome_ret : MRet outcome := fun A a => Ret a.
#[global] Instance outcome_bind : MBind outcome := fun A B f o =>
  match o with Ret a => f a | Raise e => Raise e end.

(** [soup.find("meta", attrs={"name": nm})["content"] if soup.find(...) else
    default]: subscripting a tag that lacks the attribute is a [KeyError]. *)
Definition meta_content (nm default : str) (soup : node) : outcome str :=
  match find_with_attr (lit "meta") (lit "name") nm soup with
  | Some m =>
      match attr_get (tag_attrs m) (lit "content") with
      | Some v => Ret v
      | None => Raise (KeyError (lit "content"))
      end
  | None => Ret default
  end.

(** [extract_metadata]: title, description, keywords, in this order. *)
Definition extract_metadata (soup : node) : outcome (option str * str * str) :=
  let t := match find (lit "title") soup with
           | Some tag => string_of tag
           | None => Some (lit "No Title")
           end in
  d ← meta_content (lit "description") (lit "No Description") soup;
  k ← meta_content (lit "keywords") (lit "No Keywords") soup;
  mret (t, d, k).

Definition removed_tags : list str :=
  [lit "script"; lit "style"; lit "nav"; lit "footer"; lit "header"].

(** [soup.find("main") or soup.find("article") or soup.find("section") or
    soup.find("div") or soup]; a tag is always truthy. *)
Definition main_content (soup : node) : node :=
  match find (lit "main") soup with
  | Some n => n
  | None =>
  match find (lit "article") soup with
  | Some n => n
  | None =>
  match find (lit "section") soup with
  | Some n => n
  | None =>
  match find (lit "div") soup with
  | Some n => n
  | None => soup
  end end end end.

(** [" ".join(p.get_text().strip() for p in paragraphs)[:2400]] *)
Definition body_text (paragraphs : list node) : str :=
  take 2400 (join (lit " ") (map (fun p => strip (get_text p)) paragraphs)).

Section Scraping.
Context (self : WebScraper) (env : Env).

(** The document after the [decompose] loop. *)
Definition cleaned_soup (html : str) : node :=
  decompose_all removed_tags (Tag (lit "[document]") [] (html_parser env html)).

(** The [links] list before deduplication. *)
Definition first_links (soup : node) (url : str) : list str :=
  take 10 (map (urljoin env url) (find_all_having (lit "a") (lit "href") soup)).

(** The value of [content] before the final [or]. *)
Definition summarized (text : str) : str :=
  if summarize_content self && (100 <? length (split_ws text))
  then summarize_text text
  else text.

(** [extract_content] *)
Definition extract_content (html url : str) : outcome FetchResult :=
  let soup := cleaned_soup html in
  '(t, d, k) ← extract_metadata soup;
  let paragraphs := find_all (lit "p") (main_content soup) in
  let text := summarized (body_text paragraphs) in
  mret {| title := t; description := Some d; keywords := Some k;
          content := match text with
                     | [] => lit "No main content found."
                     | _ => text
                     end;
          links := list_to_set (first_links soup url) |}.

(** [not html]: [None] and the empty string are both falsy. *)
Definition falsy (html : option str) : bool :=
  match html with
  | Some (_ :: _) => false
  | _ => true
  end.

(** [scrape_page] *)
Definition scrape_page (url : str) : M FetchResult :=
  allowed ← can_fetch self env url;
  if negb allowed
  then mret (sentinel (lit "Access denied by robots.txt"))
  else
    html ← (if enable_js self then fetch_js_page self env url
            else fetch_page self env url);
    if falsy html
    then mret (sentinel (lit "Failed to fetch " ++ url))
    else lift (extract_content (default [] html) url).

(** The loop of [scrape_multiple_pages]. *)
Fixpoint scrape_loop (results : gmap str FetchResult) (urls : list str)
    : M (gmap str FetchResult) :=
  match urls with
  | [] => mret results
  | url :: urls' =>
      r ← scrape_page url;
      scrape_loop (<[url := r]> results) urls'
  end.

(** [scrape_multiple_pages] *)
Definition scrape_multiple_pages (urls : list str) : M (gmap str FetchResult) :=
  scrape_loop ∅ urls.

End Scraping.

(** ** Concrete worlds

    Small environments and documents on which the methods are run. *)

Module Fixtures.

(** The constructor's default user agent. *)
Definition default_user_agent : str :=
  lit "Mozilla/5.0 (Windows NT 10.0; Win64; x64) AppleWebKit/537.36 (KHTML, like Gecko) Chrome/114.0.0.0 Safari/537.36".

(** [WebScraper()], and [WebScraper(summarize_content=False)]. *)
Definition scraper : WebScraper :=
  init default_user_agent 1 10 3 false true false.
Definition plain_scraper : WebScraper :=
  init default_user_agent 1 10 3 false false false.

(** A world whose clock advances one second per reading, whose robots
    document and pages answer as given, and where every [href] is already
    absolute, so that [urljoin] returns it. *)
Definition world (robots : ext bool) (get : str -> http_result)
    (parser : str -> list node) : Env :=
  {| time_time := fun k => inject_Z (Z.of_nat k);
     robots_read := fun _ _ => match robots with Throws => Throws | Returns _ => Returns () end;
     robots_can_fetch := fun _ _ _ _ => robots;
     requests_get := fun _ url _ => get url;
     render := fun _ _ _ => None;
     html_parser := parser;
     urljoin := fun _ href => href |}.

Definition text_node (s : string) : node := NavigableString (lit s).
Definition anchor (href : string) : node :=
  Tag (lit "a") [(lit "href", lit href)] [].

(** Every request is answered with status 500. *)
Definition world_500 : Env :=
  world (Returns true) (fun _ => Response 500 []) (fun _ => []).

(** The robots document cannot be read and no page can be reached. *)
Definition world_down : Env :=
  world Throws (fun _ => RequestException) (fun _ => []).

(** The robots rules disallow everything. *)
Definition world_denied : Env :=
  world (Returns false) (fun _ => Response 200 (lit "<p>x</p>")) (fun _ => []).

(** Every page is served with status 200 and an empty body. *)
Definition world_empty : Env :=
  world (Returns true) (fun _ => Response 200 []) (fun _ => []).

(** A page whose description [meta] tag has no [content] attribute, served
    at every URL. *)
Definition meta_page : str := lit "<meta name='description'><p>hello</p>".
Definition meta_doc : list node :=
  [Tag (lit "meta") [(lit "name", lit "description")] [];
   Tag (lit "p") [] [text_node "hello"]].
Definition world_meta : Env :=
  world (Returns true) (fun _ => Response 200 meta_page) (fun _ => meta_doc).

(** Eleven anchors, the first two with the same target: ten distinct
    targets in all, nine among the first ten anchors. *)
Definition link_targets : list string :=
  ["http://e.org/a"; "http://e.org/a"; "http://e.org/b"; "http://e.org/c";
   "http://e.org/d"; "http://e.org/e"; "http://e.org/f"; "http://e.org/g";
   "http://e.org/h"; "http://e.org/i"; "http://e.org/j"]%string.
Definition links_page : str :=
  lit "<div>"
  ++ concat (map (fun t => lit "<a href='" ++ lit t ++ lit "'></a>") link_targets)
  ++ lit "</div>".
Definition links_doc : list node :=
  [Tag (lit "div") [] (map anchor link_targets)].
Definition world_links : Env :=
  world (Returns true) (fun _ => Response 200 links_page) (fun _ => links_doc).

(** One paragraph of 800 words whose 2400th character ends the third
    [". "]: the cut at 2400 leaves an empty fourth segment. *)
Definition long_paragraph : str :=
  lit "x. y. " ++ concat (replicate 797 (lit "ab ")) ++ lit "c. and more".
Definition long_page : str := lit "<p>" ++ long_paragraph ++ lit "</p>".
Definition world_long : Env :=
  world (Returns true) (fun _ => Response 200 long_page)
        (fun _ => [Tag (lit "p") [] [NavigableString long_paragraph]]).

(** A document with a [div] before an [article], and a [main] inside a
    [header]. *)
Definition mixed_page : str :=
  lit "<header><main><p>banner</p></main></header><div><p> first </p></div><article><p>second</p><p>third</p></article>".
Definition mixed_doc : list node :=
  [Tag (lit "header") [] [Tag (lit "main") [] [Tag (lit "p") [] [text_node "banner"]]];
   Tag (lit "div") [] [Tag (lit "p") [] [text_node " first "]];
   Tag (lit "article") [] [Tag (lit "p") [] [text_node "second"]; Tag (lit "p") [] [text_node "third"]]].
Definition world_mixed : Env :=
  world (Returns true) (fun _ => Response 200 mixed_page) (fun _ => mixed_doc).

(** Two anchors with an [href] and one without. *)
Definition pair_page : str :=
  lit "<a href='http://e.org/a'>a</a><a href='http://e.org/b'>b</a><a name='top'>c</a>".
Definition pair_doc : list node :=
  [Tag (lit "a") [(lit "href", lit "http://e.org/a")] [text_node "a"];
   Tag (lit "a") [(lit "href", lit "http://e.org/b")] [text_node "b"];
   Tag (lit "a") [(lit "name", lit "top")] [text_node "c"]].
Definition world_pair : Env :=
  world (Returns true) (fun _ => Response 200 pair_page) (fun _ => pair_doc).

(** A world whose clock advances a tenth of a second per reading. *)
Definition world_fast : Env :=
  {| time_time := fun k => (inject_Z (Z.of_nat k) / 10)%Q;
     robots_read := fun _ _ => Returns ();
     robots_can_fetch := fun _ _ _ _ => Returns true;
     requests_get := fun _ _ _ => Response 200 (lit "<p>x</p>");
     render := fun _ _ _ => None;
     html_parser := fun _ => [];
     urljoin := fun _ href => href |}.

(** A URL of more than 2400 characters. *)
Definition long_url : str := lit "http://h.example/" ++ replicate 2400 97%N.

End Fixtures.

(** ** Reading the history *)

Definition is_get (e : event) : bool :=
  match e with EGet _ => true | _ => false end.
Definition is_render (e : event) : bool :=
  match e with ERender _ => true | _ => false end.
Definition is_robots_read (e : event) : bool :=
  match e with ERobotsRead _ => true | _ => false end.
Definition is_backoff (e : event) : bool :=
  match e with EBackoffSleep _ => true | _ => false end.

(** The seconds slept by the retry loop. *)
Fixpoint backoff_seconds (h : list event) : Z :=
  match h with
  | [] => 0
  | EBackoffSleep secs :: h' => secs + backoff_seconds h'
  | _ :: h' => backoff_seconds h'
  end.

(** The events that the retry loop on [url] can produce. *)
Definition fetch_event (url : str) (e : event) : bool :=
  match e with
  | ERateSleep _ | EBackoffSleep _ => true
  | EGet u => bool_decide (u = url)
  | _ => false
  end.

(** What one failed attempt leaves in the history, rate waits aside. *)
Definition failed_attempt (url : str) (attempt : nat) : list event :=
  [EGet url; EBackoffSleep (2 ^ Z.of_nat attempt)].

(** The node is a tag with one of the names. *)
Definition unwanted (names : list str) (n : node) : bool :=
  existsb (fun x => is_tag_named x n) names.



(** More worlds. *)
Module Worlds.
Import Fixtures.

(** [WebScraper(enable_js=True)] with Playwright installed, and without. *)
Definition js_scraper : WebScraper :=
  init default_user_agent 1 10 3 true true true.
Definition js_scraper_no_playwright : WebScraper :=
  init default_user_agent 1 10 3 true true false.

Definition patient_scraper : WebScraper :=
  init default_user_agent 1 10 5 false true false.

(** The server fails twice and then serves the page: the answer depends on
    the number of requests already in the history. *)
Definition flaky_get (h : list event) (body : str) : http_result :=
  if length (List.filter is_get h) <? 2 then Response 503 [] else Response 200 body.

Definition world_flaky : Env :=
  {| time_time := fun k => inject_Z (Z.of_nat k);
     robots_read := fun _ _ => Returns ();
     robots_can_fetch := fun _ _ _ _ => Returns true;
     requests_get := fun h _ _ => flaky_get h mixed_page;
     render := fun _ _ _ => None;
     html_parser := fun _ => mixed_doc;
     urljoin := fun _ href => href |}.

(** Rendering works and returns the page. *)
Definition world_rendered : Env :=
  {| time_time := fun k => inject_Z (Z.of_nat k);
     robots_read := fun _ _ => Returns ();
     robots_can_fetch := fun _ _ _ _ => Returns true;
     requests_get := fun _ _ _ => RequestException;
     render := fun _ _ _ => Some mixed_page;
     html_parser := fun _ => mixed_doc;
     urljoin := fun _ href => href |}.

(** A page with an empty [title] tag and nothing else. *)
Definition untitled_page : str := lit "<title></title>".
Definition untitled_doc : list node := [Tag (lit "title") [] []].
Definition world_untitled : Env :=
  world (Returns true) (fun _ => Response 200 untitled_page) (fun _ => untitled_doc).

(** An empty [div] comes first, the only paragraph follows it. *)
Definition empty_div_page : str := lit "<div></div><p>text</p>".
Definition empty_div_doc : list node :=
  [Tag (lit "div") [] []; Tag (lit "p") [] [text_node "text"]].
Definition world_empty_div : Env :=
  world (Returns true) (fun _ => Response 200 empty_div_page) (fun _ => empty_div_doc).

(** A script inside a paragraph, a style inside a nav. *)
Definition script_page : str :=
  lit "<p>before<script>var x;</script>after</p><nav><style>a{}</style></nav>".
Definition script_doc : list node :=
  [Tag (lit "p") [] [text_node "before"; Tag (lit "script") [] [text_node "var x;"];
                     text_node "after"];
   Tag (lit "nav") [] [Tag (lit "style") [] [text_node "a{}"]]].

End Worlds.

(** ** The search-and-scrape pipeline

    [SearchAndScrape.search_and_scrape] of [search_and_scrape.py].  The
    language model, the search provider and the disk cache live outside the
    file: the first two are oracles that return or throw, the cache is a
    finite map.  This first embedding leaves the console out: it gives the
    runs in which no [console.print] raises.  The module [Printing] below
    adds the console and proves that a run that returns, returns what is
    computed here. *)

Module Pipeline.

(** One entry of the search results, read through its keys [title],
    [snippet] and [link]. *)
Record SearchResult := {
  sr_title : str;
  sr_snippet : str;
  sr_link : str;
}.

(** One entry of [combined_results]. *)
Record Combined := {
  c_title : str;
  c_snippet : str;
  c_link : str;
  c_scraped_content : str;
  c_source : str;
}.

(** The dictionary the method returns and caches. *)
Record Data := {
  results : list Combined;
  final_answer : option str;
}.

(** Calls to the collaborators, in the order they happen. *)
Inductive call :=
| CReformulate (query : str)
| CSearch (query : option str)
| CGenerate (query scraped_text : str).

Record Collaborators := {
  (** [self.llm.reformulate_query(query)]; the answer may be [None] *)
  reformulate_query : str -> ext (option str);
  (** [self.search_module.search(query, time_range=..., include_keywords=...,
      exclude_keywords=...)]; a falsy answer is the empty list *)
  search : option str -> option str -> option (list str) -> option (list str)
           -> ext (list SearchResult);
  (** [self.llm.generate_final_answer(query, scraped_text)] *)
  generate_final_answer : str -> str -> ext (option str);
}.

(** The state of a [SearchAndScrape] instance: the state of its scraper, the
    cache, and the calls made. *)
Record App := {
  scraper_state : State;
  cache : gmap (option str) Data;
  calls : list call;
}.

(** How the method ends: with its return value, or with the exception of a
    collaborator, for which it has no handler. *)
Inductive finished (A : Type) := Done (a : A) | Escaped.
Arguments Done {A} a.
Arguments Escaped {A}.

(** [self.web_scraper = WebScraper()] *)
Definition web_scraper : WebScraper := Fixtures.scraper.

(** The scraping loop: an exception of [scrape_page] is caught and the URL
    gets no entry in [scraped_data]. *)
Fixpoint scrape_each (env : Env) (urls : list str)
    (scraped_data : gmap str FetchResult) (st : State)
    : gmap str FetchResult * State :=
  match urls with
  | [] => (scraped_data, st)
  | url :: urls' =>
      match scrape_page web_scraper env url st with
      | (Ret r, st') => scrape_each env urls' (<[url := r]> scraped_data) st'
      | (Raise _, st') => scrape_each env urls' scraped_data st'
      end
  end.

(** [needle in s] on strings. *)
Fixpoint contains (needle s : str) : bool :=
  starts_with needle s
  || match s with
     | [] => false
     | _ :: s' => contains needle s'
     end.

(** [scraped_content.get("content", fallback)] where [scraped_content] is
    [scraped_data.get(url, {})]. *)
Definition content_or (fallback : str) (scraped_content : option FetchResult) : str :=
  match scraped_content with
  | Some r => content r
  | None => fallback
  end.

Definition restricted (scraped_content : option FetchResult) : bool :=
  contains (lit "Access denied by robots.txt") (content_or [] scraped_content).

(** The loop that compiles [combined_results]. *)
Definition compile_results (skip_restricted : bool)
    (scraped_data : gmap str FetchResult) (search_results : list SearchResult)
    : list Combined :=
  flat_map
    (fun result =>
       let url := sr_link result in
       let scraped_content := scraped_data !! url in
       if skip_restricted && restricted scraped_content
       then []
       else [{| c_title := sr_title result;
                c_snippet := sr_snippet result;
                c_link := url;
                c_scraped_content :=
                  content_or (lit "No content scraped.") scraped_content;
                c_source := netloc (urlparse url) |}])
    search_results.

Definition log (c : call) (app : App) : App :=
  {| scraper_state := scraper_state app; cache := cache app;
     calls := calls app ++ [c] |}.

(** [search_and_scrape] *)
Definition search_and_scrape (co : Collaborators) (env : Env) (query : str)
    (skip_restricted : bool) (time_range : option str)
    (include_keywords exclude_keywords : option (list str)) (app : App)
    : finished Data * App :=
  let app := log (CReformulate query) app in
  match reformulate_query co query with
  | Throws => (Escaped, app)
  | Returns reformulated_query =>
      match cache app !! reformulated_query with
      | Some cached => (Done cached, app)
      | None =>
          let app := log (CSearch reformulated_query) app in
          match search co reformulated_query time_range
                  include_keywords exclude_keywords with
          | Throws => (Escaped, app)
          | Returns [] => (Done {| results := []; final_answer := None |}, app)
          | Returns search_results =>
              let urls := map sr_link search_results in
              let '(scraped_data, st') :=
                scrape_each env urls ∅ (scraper_state app) in
              let combined_results :=
                compile_results skip_restricted scraped_data search_results in
              let scraped_text :=
                join (lit " ") (map c_scraped_content combined_results) in
              let app :=
                {| scraper_state := st'; cache := cache app;
                   calls := calls app ++ [CGenerate query scraped_text] |} in
              match generate_final_answer co query scraped_text with
              | Throws => (Escaped, app)
              | Returns answer =>
                  let data := {| results := combined_results;
                                 final_answer := answer |} in
                  (Done data,
                   {| scraper_state := scraper_state app;
                      cache := <[reformulated_query := data]> (cache app);
                      calls := calls app |})
              end
          end
      end
  end.

(** [[kw.strip() for kw in arg.split(",")] if arg else None], the keyword
    options of [main.py] and of the script part of [search_and_scrape.py]. *)
Definition parse_keywords (arg : option str) : option (list str) :=
  match arg with
  | Some (c :: s) => Some (map strip (split (lit ",") (c :: s)))
  | _ => None
  end.

(** The entry that the compiling loop builds for a search result it
    keeps. *)
Definition entry_of (data : gmap str FetchResult) (sr : SearchResult) : Combined :=
  {| c_title := sr_title sr; c_snippet := sr_snippet sr; c_link := sr_link sr;
     c_scraped_content := content_or (lit "No content scraped.") (data !! sr_link sr);
     c_source := netloc (urlparse (sr_link sr)) |}.

(** The number of commas of a string. *)
Definition commas (s : str) : nat :=
  length (List.filter (fun d => (44 =? d)%N) s).

(** A fresh instance with an empty cache. *)
Definition fresh : App :=
  {| scraper_state := initial_state; cache := ∅; calls := [] |}.

(** Collaborators that echo the query, return the given search results and
    answer with a fixed text. *)
Definition echo (found : list SearchResult) : Collaborators :=
  {| reformulate_query := fun q => Returns (Some q);
     search := fun _ _ _ _ => Returns found;
     generate_final_answer := fun _ _ => Returns (Some (lit "answer")) |}.

Definition hit (t l : string) : SearchResult :=
  {| sr_title := lit t; sr_snippet := lit "snippet"; sr_link := lit l |}.

End Pipeline.

(** ** URLs that the library accepts

    [urlparse] and [urljoin] raise [ValueError] on a URL whose authority has
    an unbalanced or ill-formed bracketed host, or is not ASCII and changes
    under NFKC normalization.  A URL of ASCII characters without brackets is
    accepted by both; the embedding of the scraper describes the calls on
    such URLs. *)

Definition plain_char (c : char) : bool :=
  ((c <? 128) && negb (c =? 91) && negb (c =? 93))%N.

Definition plain (u : str) : bool := forallb plain_char u.

(** ** The robots parser of the standard library

    What [RobotFileParser.read] and [RobotFileParser.can_fetch] make of the
    answer to the request for the robots document. *)

Module Robots.

(** The outcome of [urllib.request.urlopen(robots_url)] and of reading and
    decoding the body. *)
Inductive urlopen_result :=
| HTTPError (code : N)
    (** the server answered with an error status *)
| OtherError
    (** any other exception: no connection, timeout, undecodable body *)
| Fetched (allowance : str -> str -> ext bool)
    (** the document was read and parsed; what its rules answer for a user
        agent and a URL, or the exception of that query *).

(** The attributes of the parser that [can_fetch] looks at. *)
Record RobotFileParser := {
  disallow_all : bool;
  allow_all : bool;
  last_checked : bool;
  rules : str -> str -> ext bool;
}.

(** [RobotFileParser()] *)
Definition new_parser : RobotFileParser :=
  {| disallow_all := false; allow_all := false; last_checked := false;
     rules := fun _ _ => Returns true |}.

(** [read]: an [HTTPError] is caught inside: 401 and 403 set [disallow_all],
    the other 4xx set [allow_all], every other code leaves the parser as
    it was; other exceptions propagate; a document is parsed, which sets
    [last_checked]. *)
Definition read (r : urlopen_result) : ext RobotFileParser :=
  match r with
  | HTTPError code =>
      Returns
        (if ((code =? 401) || (code =? 403))%N
         then {| disallow_all := true; allow_all := false; last_checked := false;
                 rules := rules new_parser |}
         else if ((400 <=? code) && (code <? 500))%N
         then {| disallow_all := false; allow_all := true; last_checked := false;
                 rules := rules new_parser |}
         else new_parser)
  | OtherError => Throws
  | Fetched allowance =>
      Returns {| disallow_all := false; allow_all := false; last_checked := true;
                 rules := allowance |}
  end.

(** [can_fetch(useragent, url)] *)
Definition parser_can_fetch (rp : RobotFileParser) (useragent url : str) : ext bool :=
  if disallow_all rp then Returns false
  else if allow_all rp then Returns true
  else if negb (last_checked rp) then Returns false
  else rules rp useragent url.

(** The environment in which the robots documents are served by [server]. *)
Definition served (server : list event -> str -> urlopen_result) (env : Env) : Env :=
  {| time_time := time_time env;
     robots_read := fun h robots_url =>
       match read (server h robots_url) with
       | Returns _ => Returns ()
       | Throws => Throws
       end;
     robots_can_fetch := fun h robots_url useragent url =>
       match read (server h robots_url) with
       | Returns rp => parser_can_fetch rp useragent url
       | Throws => Throws
       end;
     requests_get := requests_get env;
     render := render env;
     html_parser := html_parser env;
     urljoin := urljoin env |}.

(** Every robots document is answered with the given error status. *)
Definition world_robots_status (code : N) : Env :=
  served (fun _ _ => HTTPError code) Fixtures.world_mixed.

(** No robots document can be reached. *)
Definition world_robots_unreachable : Env :=
  served (fun _ _ => OtherError) Fixtures.world_mixed.

End Robots.

(** ** The pipeline with its console

    Every [self.console.print] of [search_and_scrape] goes through rich's
    markup parser, which raises [MarkupError] on a closing tag that matches
    no open tag; the query, the reformulated query, the links and the text
    of a caught exception are interpolated into the messages.  The
    progress bar has a fixed description and is left out. *)

Module Printing.
Import Pipeline.

(** [self.console.print(message)]: rendered, or an exception. *)
Record Console := {
  console_print : str -> ext unit;
}.

(** [f"[tag]{body}[/tag]"] *)
Definition markup (tag body : str) : str :=
  lit "[" ++ tag ++ lit "]" ++ body ++ lit "[/" ++ tag ++ lit "]".

(** [f"{e}"] for the exception of the scraper: the [repr] of the key. *)
Definition exn_message (e : exn) : str :=
  match e with KeyError key => lit "'" ++ key ++ lit "'" end.

(** [f"{reformulated_query}"] *)
Definition shown (q : option str) : str :=
  match q with
  | Some text => text
  | None => lit "None"
  end.

(** The scraping loop: the message of a caught exception is printed inside
    the [except] branch, and an exception of that print leaves the loop. *)
Fixpoint scrape_each_printing (con : Console) (env : Env) (urls : list str)
    (scraped_data : gmap str FetchResult) (st : State)
    : finished (gmap str FetchResult) * State :=
  match urls with
  | [] => (Done scraped_data, st)
  | url :: urls' =>
      match scrape_page web_scraper env url st with
      | (Ret r, st') =>
          scrape_each_printing con env urls' (<[url := r]> scraped_data) st'
      | (Raise e, st') =>
          match console_print con
                  (markup (lit "red")
                     (lit "Error scraping " ++ url ++ lit ": " ++ exn_message e)) with
          | Returns _ => scrape_each_printing con env urls' scraped_data st'
          | Throws => (Escaped, st')
          end
      end
  end.

(** The compiling loop: a skipped page is announced. *)
Fixpoint compile_printing (con : Console) (skip_restricted : bool)
    (scraped_data : gmap str FetchResult) (search_results : list SearchResult)
    : finished (list Combined) :=
  match search_results with
  | [] => Done []
  | result :: rest =>
      let url := sr_link result in
      let scraped_content := scraped_data !! url in
      if skip_restricted && restricted scraped_content
      then match console_print con
                   (markup (lit "yellow") (lit "Skipped restricted page: " ++ url)) with
           | Returns _ => compile_printing con skip_restricted scraped_data rest
           | Throws => Escaped
           end
      else match compile_printing con skip_restricted scraped_data rest with
           | Done combined => Done (entry_of scraped_data result :: combined)
           | Escaped => Escaped
           end
  end.

(** [search_and_scrape], prints included. *)
Definition search_and_scrape_printing (con : Console) (co : Collaborators) (env : Env)
    (query : str) (skip_restricted : bool) (time_range : option str)
    (include_keywords exclude_keywords : option (list str)) (app : App)
    : finished Data * App :=
  match console_print con (markup (lit "cyan") (lit "Original Query: " ++ query)) with
  | Throws => (Escaped, app)
  | Returns _ =>
  let app := log (CReformulate query) app in
  match reformulate_query co query with
  | Throws => (Escaped, app)
  | Returns reformulated_query =>
  match console_print con
          (markup (lit "cyan") (lit "Reformulated Query: " ++ shown reformulated_query)) with
  | Throws => (Escaped, app)
  | Returns _ =>
  match cache app !! reformulated_query with
  | Some cached =>
      match console_print con
              (markup (lit "green") (lit "Loaded cached results for query.")) with
      | Throws => (Escaped, app)
      | Returns _ => (Done cached, app)
      end
  | None =>
      let app := log (CSearch reformulated_query) app in
      match search co reformulated_query time_range
              include_keywords exclude_keywords with
      | Throws => (Escaped, app)
      | Returns [] =>
          match console_print con
                  (markup (lit "red") (lit "No search results found.")) with
          | Throws => (Escaped, app)
          | Returns _ => (Done {| results := []; final_answer := None |}, app)
          end
      | Returns search_results =>
          let urls := map sr_link search_results in
          let '(scraped, st') :=
            scrape_each_printing con env urls ∅ (scraper_state app) in
          let app := {| scraper_state := st'; cache := cache app;
                        calls := calls app |} in
          match scraped with
          | Escaped => (Escaped, app)
          | Done scraped_data =>
          match compile_printing con skip_restricted scraped_data search_results with
          | Escaped => (Escaped, app)
          | Done combined_results =>
              let scraped_text :=
                join (lit " ") (map c_scraped_content combined_results) in
              match console_print con
                      (markup (lit "cyan")
                         (lit "Generating final answer using LLM...")) with
              | Throws => (Escaped, app)
              | Returns _ =>
                  let app := log (CGenerate query scraped_text) app in
                  match generate_final_answer co query scraped_text with
                  | Throws => (Escaped, app)
                  | Returns answer =>
                      let data := {| results := combined_results;
                                     final_answer := answer |} in
                      (Done data,
                       {| scraper_state := scraper_state app;
                          cache := <[reformulated_query := data]> (cache app);
                          calls := calls app |})
                  end
              end
          end
          end
      end
  end
  end
  end
  end.



(** A console for the examples: it renders a message with at most two
    opening brackets and raises on any other. *)
Definition count_open (s : str) : nat :=
  length (List.filter (fun c => (c =? 91)%N) s).

Definition strict_console : Console :=
  {| console_print := fun message =>
       if count_open message <=? 2 then Returns () else Throws |}.

End Printing.

(** * Properties *)

Import Fixtures.

Example summarize_four :
  summarize_text (lit "A. B. C. D.") = lit "A. B. C...".
Proof. reflexivity. Qed.

Example urlparse_wiki :
  urlparse (lit "https://en.wikipedia.org/wiki/Web_scraping")
  = {| scheme := lit "https"; netloc := lit "en.wikipedia.org";
       rest := lit "/wiki/Web_scraping" |}.
Proof. reflexivity. Qed.

Example urlparse_port :
  netloc (urlparse (lit "HTTP://user@Example.com:8080?q=1")) = lit "user@Example.com:8080".
Proof. reflexivity. Qed.

(** ** Splitting and joining *)

Section SplitJoin.
Context (sep : str).

Lemma join_cons (p : str) (rest : list str) :
  rest <> [] -> join sep (p :: rest) = p ++ sep ++ join sep rest.
Proof. destruct rest; [congruence | reflexivity]. Qed.

Lemma join_app (l1 l2 : list str) :
  l1 <> [] -> l2 <> [] ->
  join sep (l1 ++ l2) = join sep l1 ++ sep ++ join sep l2.
Proof.
  induction l1 as [|p l1 IH]; intros H1 H2; [congruence|].
  destruct l1 as [|q l1].
  - simpl app. by rewrite join_cons.
  - change ((p :: q :: l1) ++ l2) with (p :: ((q :: l1) ++ l2)).
    rewrite join_cons by (simpl; congruence).
    rewrite IH by congruence.
    rewrite (join_cons p (q :: l1)) by congruence.
    by rewrite <- !app_assoc.
Qed.

Lemma split_go_nonempty (fuel : nat) (cur s : str) :
  split_go fuel sep cur s <> [].
Proof.
  revert cur s. induction fuel as [|fuel IH]; intros cur s; simpl; [congruence|].
  destruct s as [|c s]; [congruence|].
  destruct (starts_with sep (c :: s)); [congruence | apply IH].
Qed.

Lemma starts_with_drop (p s : str) :
  starts_with p s = true -> s = p ++ drop (length p) s.
Proof.
  revert s. induction p as [|a p IH]; intros s H; [reflexivity|].
  destruct s as [|b s]; [discriminate|].
  simpl in H. apply andb_true_iff in H as [Hab Hps].
  apply N.eqb_eq in Hab. subst b. simpl. f_equal. by apply IH.
Qed.

(** Joining the segments with the separator gives the text back. *)
Lemma join_split_go (fuel : nat) (cur s : str) :
  join sep (split_go fuel sep cur s) = cur ++ s.
Proof.
  revert cur s. induction fuel as [|fuel IH]; intros cur s; [reflexivity|].
  simpl. destruct s as [|c s]; [by rewrite app_nil_r|].
  destruct (starts_with sep (c :: s)) eqn:Hsw.
  - rewrite join_cons by apply split_go_nonempty.
    rewrite IH. simpl app at 2.
    by rewrite <- (starts_with_drop _ _ Hsw).
  - rewrite IH. by rewrite <- app_assoc.
Qed.

(** The first [n] segments, joined, and one separator fit in the whole. *)
Lemma join_take_length (n : nat) (l : list str) :
  0 < n < length l ->
  length (join sep (take n l)) + length sep <= length (join sep l).
Proof.
  intros Hn.
  assert (join sep l = join sep (take n l) ++ sep ++ join sep (drop n l)) as ->.
  { rewrite <- join_app; [by rewrite take_drop| |].
    - intros E. apply (f_equal length) in E. rewrite length_take in E.
      simpl in E. lia.
    - intros E. apply (f_equal length) in E. rewrite length_drop in E.
      simpl in E. lia. }
  rewrite !length_app. lia.
Qed.

Lemma join_split (s : str) : join sep (split sep s) = s.
Proof. apply join_split_go. Qed.

(** More fuel than the length of the text changes nothing. *)
Lemma split_go_fuel (f1 f2 : nat) (cur s : str) :
  sep <> [] -> length s <= f1 -> length s <= f2 ->
  split_go f1 sep cur s = split_go f2 sep cur s.
Proof.
  intros Hsep. revert f2 cur s.
  induction f1 as [|f1 IH]; intros f2 cur s H1 H2.
  - destruct s; [|simpl in H1; lia]. destruct f2; simpl; by rewrite ?app_nil_r.
  - destruct f2 as [|f2].
    + destruct s; [simpl; by rewrite app_nil_r | simpl in H2; lia].
    + simpl. destruct s as [|c s]; [reflexivity|].
      simpl in H1, H2.
      destruct (starts_with sep (c :: s)).
      * f_equal. destruct sep as [|a sep']; [congruence|].
        simpl. apply IH; rewrite length_drop; lia.
      * apply IH; lia.
Qed.

End SplitJoin.

(** The part kept by [summarize_text] is a proper prefix of the text: the
    result is at most one character longer than the text. *)
Lemma summarize_text_length (text : str) :
  length (summarize_text text) <= length text + 1.
Proof.
  unfold summarize_text.
  destruct (3 <? length (split (lit ". ") text)) eqn:Hn; [|lia].
  apply Nat.ltb_lt in Hn.
  pose proof (join_take_length (lit ". ") 3 (split (lit ". ") text)) as Hlen.
  rewrite join_split in Hlen.
  rewrite length_app.
  change (length (lit "...")) with 3. change (length (lit ". ")) with 2 in Hlen.
  lia.
Qed.

(** C7: [summarize_text] splits on [". "]; with at most three segments the
    text comes back unchanged, with more than three the result is the
    first three segments joined by [". "] and followed by ["..."]; and
    ["A. B. C. D."] becomes ["A. B. C..."]. *)
Theorem summarize_text_spec (text : str) :
  (length (split (lit ". ") text) <= 3 -> summarize_text text = text)
  /\ (3 < length (split (lit ". ") text) ->
      summarize_text text
      = join (lit ". ") (take 3 (split (lit ". ") text)) ++ lit "...")
  /\ join (lit ". ") (split (lit ". ") text) = text
  /\ summarize_text (lit "A. B. C. D.") = lit "A. B. C...".
Proof.
  unfold summarize_text. repeat split.
  - intros H. apply Nat.ltb_ge in H. by rewrite H.
  - intros H. apply Nat.ltb_lt in H. by rewrite H.
  - apply join_split.
Qed.

Lemma summarize_text_spec_witness :
  summarize_text (lit "Short. Text") = lit "Short. Text"
  /\ summarize_text (lit "One. Two. Three. Four. Five")
     = lit "One. Two. Three...".
Proof.
  split.
  - apply (proj1 (summarize_text_spec (lit "Short. Text"))). vm_compute. lia.
  - rewrite (proj1 (proj2 (summarize_text_spec (lit "One. Two. Three. Four. Five")))).
    + reflexivity.
    + vm_compute. lia.
Defined.

(** ** Running the monad *)

Ltac run :=
  unfold mbind, M_bind, mret, M_ret, lift, get_trace, emit, get_table,
    set_entry, read_clock, raise; simpl.

(** ** Robots *)

Lemma can_fetch_run (self : WebScraper) (env : Env) (url : str) (st : State) :
  exists b,
    can_fetch self env url st
    = (Ret b, {| last_request_time := last_request_time st;
                 clock_reads := clock_reads st;
                 trace := trace st ++ [ERobotsRead (robots_url_of url)] |}).
Proof.
  unfold can_fetch. run.
  destruct (robots_read env (trace st) (robots_url_of url)); [|by eexists].
  destruct (robots_can_fetch env (trace st) (robots_url_of url) (user_agent self) url);
    by eexists.
Qed.

(** Where the [try] of [can_fetch] applies: on a URL that [urlparse]
    accepts, an exception from reading the robots document, or from querying
    its rules, is answered with [True]. *)
Lemma can_fetch_when_throwing (self : WebScraper) (env : Env) (url : str) (st : State) :
  plain url = true ->
  robots_read env (trace st) (robots_url_of url) = Throws
  \/ robots_can_fetch env (trace st) (robots_url_of url) (user_agent self) url = Throws ->
  fst (can_fetch self env url st) = Ret true.
Proof.
  intros _ H. unfold can_fetch. run.
  destruct (robots_read env (trace st) (robots_url_of url)) eqn:Hread.
  - destruct H as [H|H]; [discriminate|]. by rewrite H.
  - reflexivity.
Qed.

(** What [can_fetch] answers, by what the request for the robots document
    meets: an exception other than [HTTPError] gives [True]; the statuses
    401 and 403 give [False]; the other 4xx give [True]; every other error
    status, the 5xx among them, gives [False]. *)
Lemma can_fetch_served (self : WebScraper) (env : Env)
    (server : list event -> str -> Robots.urlopen_result) (url : str) (st : State) :
  fst (can_fetch self (Robots.served server env) url st)
  = Ret match server (trace st) (robots_url_of url) with
        | Robots.HTTPError code =>
            if ((code =? 401) || (code =? 403))%N then false
            else ((400 <=? code) && (code <? 500))%N
        | Robots.OtherError => true
        | Robots.Fetched allowance =>
            match allowance (user_agent self) url with
            | Returns allowed => allowed
            | Throws => true
            end
        end.
Proof.
  unfold can_fetch. run.
  destruct (server (trace st) (robots_url_of url)) as [code| |allowance];
    cbn [Robots.read]; [|reflexivity|].
  - destruct ((code =? 401) || (code =? 403))%N; [reflexivity|].
    by destruct ((400 <=? code) && (code <? 500))%N.
  - unfold Robots.parser_can_fetch. cbn.
    by destruct (allowance (user_agent self) url).
Qed.

(** C5 fails on the code: when the server answers the request for the robots
    document with status 503, the parser's [read] swallows the error and
    [can_fetch] answers [False]: the page is refused, although the robots
    document could not be fetched.  The same happens for 403; only a
    failure that reaches the [except] of the method gives [True]. *)
Theorem can_fetch_blocks_on_server_error :
  fst (can_fetch scraper (Robots.world_robots_status 503)
         (lit "https://www.python.org/") initial_state) = Ret false
  /\ fst (scrape_page scraper (Robots.world_robots_status 503)
            (lit "https://www.python.org/") initial_state)
     = Ret (sentinel (lit "Access denied by robots.txt"))
  /\ fst (can_fetch scraper (Robots.world_robots_status 403)
            (lit "https://www.python.org/") initial_state) = Ret false
  /\ fst (can_fetch scraper Robots.world_robots_unreachable
            (lit "https://www.python.org/") initial_state) = Ret true.
Proof. repeat split; vm_compute; reflexivity. Qed.

(** C8: when [can_fetch] answers [False], [scrape_page] returns the
    access-denied sentinel, and the only external call made is the read of
    the robots document: no [requests.get], no rendering. *)
Theorem scrape_page_denied (self : WebScraper) (env : Env) (url : str)
    (st st' : State) :
  can_fetch self env url st = (Ret false, st') ->
  scrape_page self env url st
  = (Ret {| title := Some (lit "No Title"); description := None;
            keywords := None; content := lit "Access denied by robots.txt";
            links := ∅ |}, st')
  /\ trace st' = trace st ++ [ERobotsRead (robots_url_of url)].
Proof.
  intros H. split.
  - unfold scrape_page. unfold mbind at 1. unfold M_bind. by rewrite H.
  - destruct (can_fetch_run self env url st) as [b Hb]. rewrite Hb in H.
    by inversion H.
Qed.

Lemma scrape_page_denied_witness :
  fst (scrape_page scraper world_denied (lit "http://h.example/private") initial_state)
  = Ret (sentinel (lit "Access denied by robots.txt"))
  /\ trace (snd (scrape_page scraper world_denied (lit "http://h.example/private")
                   initial_state))
     = [ERobotsRead (lit "http://h.example/robots.txt")].
Proof.
  destruct (scrape_page_denied scraper world_denied (lit "http://h.example/private")
              initial_state
              (snd (can_fetch scraper world_denied (lit "http://h.example/private")
                      initial_state))) as [H1 H2].
  - reflexivity.
  - rewrite H1. split; reflexivity.
Defined.

(** C10: when the robots rules allow the URL and the fetch returns the empty
    string, [scrape_page] returns the failure sentinel, exactly as when the
    fetch returns [None]; nothing is extracted. *)
Theorem scrape_page_empty_body (self : WebScraper) (env : Env) (url : str)
    (st st1 st2 : State) (html : option str) :
  can_fetch self env url st = (Ret true, st1) ->
  (if enable_js self then fetch_js_page self env url else fetch_page self env url) st1
  = (Ret html, st2) ->
  html = Some [] \/ html = None ->
  scrape_page self env url st
  = (Ret {| title := Some (lit "No Title"); description := None;
            keywords := None; content := lit "Failed to fetch " ++ url;
            links := ∅ |}, st2).
Proof.
  intros Hrobots Hfetch Hhtml.
  unfold scrape_page. unfold mbind at 1. unfold M_bind at 1. rewrite Hrobots.
  unfold mbind, M_bind. cbn [negb]. cbv beta iota. rewrite Hfetch.
  by destruct Hhtml as [-> | ->].
Qed.

Lemma scrape_page_empty_body_witness :
  fetch_page scraper world_empty (lit "http://h.example/")
    (snd (can_fetch scraper world_empty (lit "http://h.example/") initial_state))
  = (Ret (Some []),
     snd (scrape_page scraper world_empty (lit "http://h.example/") initial_state))
  /\ fst (scrape_page scraper world_empty (lit "http://h.example/") initial_state)
     = Ret (sentinel (lit "Failed to fetch http://h.example/")).
Proof.
  split; [reflexivity|].
  rewrite (scrape_page_empty_body scraper world_empty (lit "http://h.example/")
             initial_state
             (snd (can_fetch scraper world_empty (lit "http://h.example/") initial_state))
             (snd (scrape_page scraper world_empty (lit "http://h.example/") initial_state))
             (Some [])).
  - reflexivity.
  - reflexivity.
  - reflexivity.
  - left. reflexivity.
Defined.

(** ** Rate limiting and retries *)

(** One call of [respect_rate_limit]: two clock readings, at most one wait,
    and the second reading stored under the netloc of the URL. *)
Lemma respect_rate_limit_run (self : WebScraper) (env : Env) (url : str) (st : State) :
  exists waits,
    respect_rate_limit self env url st
    = (Ret (),
       {| last_request_time :=
            <[netloc (urlparse url) := time_time env (S (clock_reads st))]>
              (last_request_time st);
          clock_reads := S (S (clock_reads st));
          trace := trace st ++ waits |})
    /\ without_rate_sleeps waits = [].
Proof.
  unfold respect_rate_limit. run.
  destruct (last_request_time st !! netloc (urlparse url)) as [last|].
  - destruct (Qlt_b _ _).
    + eexists [_]. split; reflexivity.
    + exists []. by rewrite app_nil_r.
  - exists []. by rewrite app_nil_r.
Qed.

Lemma without_rate_sleeps_app (h1 h2 : list event) :
  without_rate_sleeps (h1 ++ h2) = without_rate_sleeps h1 ++ without_rate_sleeps h2.
Proof. apply List.filter_app. Qed.

(** When every request fails, the loop runs every attempt, sleeps after each
    one, and falls through to [None]. *)
Lemma fetch_attempts_all_fail (self : WebScraper) (env : Env) (url : str)
    (attempts : list nat) (st : State) :
  (forall h, request_fails (requests_get env h url (user_agent self)) = true) ->
  exists st' added,
    fetch_attempts self env url attempts st = (Ret None, st')
    /\ trace st' = trace st ++ added
    /\ without_rate_sleeps added
       = flat_map (fun attempt => [EGet url; EBackoffSleep (2 ^ Z.of_nat attempt)])
                  attempts.
Proof.
  intros Hfail. revert st.
  induction attempts as [|attempt later IH]; intros st.
  - exists st, []. by rewrite app_nil_r.
  - destruct (respect_rate_limit_run self env url st) as (waits & Hrate & Hwaits).
    cbn [fetch_attempts]. unfold mbind at 1. unfold M_bind at 1. rewrite Hrate.
    run. specialize (Hfail (trace st ++ waits)).
    pose (st1 := {| last_request_time :=
                      <[netloc (urlparse url) := time_time env (S (clock_reads st))]>
                        (last_request_time st);
                    clock_reads := S (S (clock_reads st));
                    trace := ((trace st ++ waits) ++ [EGet url])
                               ++ [EBackoffSleep (2 ^ Z.of_nat attempt)] |}).
    assert (exists st' added,
               fetch_attempts self env url later st1 = (Ret None, st')
               /\ trace st' = trace st ++ waits
                                ++ [EGet url; EBackoffSleep (2 ^ Z.of_nat attempt)] ++ added
               /\ without_rate_sleeps added
                  = flat_map (fun a => [EGet url; EBackoffSleep (2 ^ Z.of_nat a)]) later)
      as (st' & added & Hrun & Htrace & Hadded).
    { destruct (IH st1) as (st' & added & Hrun & Htrace & Hadded).
      exists st', added. split; [done|]. split; [|done].
      rewrite Htrace. subst st1. simpl. by rewrite <- !app_assoc. }
    exists st', (waits ++ [EGet url; EBackoffSleep (2 ^ Z.of_nat attempt)] ++ added).
    split; [|split].
    + destruct (requests_get env (trace st ++ waits) url (user_agent self)) as [status text|].
      * simpl in Hfail. rewrite Hfail. exact Hrun.
      * exact Hrun.
    + exact Htrace.
    + rewrite !without_rate_sleeps_app, Hwaits, Hadded. reflexivity.
Qed.

(** C3, as the code has it: with [max_retries] 3 and every request failing,
    [fetch_page] issues exactly three requests, sleeps 1, 2 and 4 seconds,
    one sleep after each failed request, the last of them after the final
    attempt, and returns [None]. *)
Theorem fetch_page_all_fail (self : WebScraper) (env : Env) (url : str) (st : State) :
  max_retries self = 3 ->
  (forall h, request_fails (requests_get env h url (user_agent self)) = true) ->
  exists st' added,
    fetch_page self env url st = (Ret None, st')
    /\ trace st' = trace st ++ added
    /\ without_rate_sleeps added
       = [EGet url; EBackoffSleep 1; EGet url; EBackoffSleep 2;
          EGet url; EBackoffSleep 4].
Proof.
  intros Hretries Hfail. unfold fetch_page. rewrite Hretries.
  destruct (fetch_attempts_all_fail self env url (seq 0 3) st Hfail)
    as (st' & added & Hrun & Htrace & Hadded).
  by exists st', added.
Qed.

Lemma fetch_page_all_fail_witness :
  exists st' added,
    fetch_page scraper world_500 (lit "http://h.example/x") initial_state
    = (Ret None, st')
    /\ trace st' = trace initial_state ++ added
    /\ without_rate_sleeps added
       = [EGet (lit "http://h.example/x"); EBackoffSleep 1;
          EGet (lit "http://h.example/x"); EBackoffSleep 2;
          EGet (lit "http://h.example/x"); EBackoffSleep 4].
Proof.
  apply (fetch_page_all_fail scraper world_500 (lit "http://h.example/x") initial_state).
  - reflexivity.
  - intros h. reflexivity.
Defined.

(** C3, as stated, fails: on a server that always answers 500 the history of
    [fetch_page] ends with a four-second sleep after the third and last
    request, so the sleeps are not confined to the gaps between attempts. *)
Lemma fetch_page_sleeps_after_last_attempt :
  let run := fetch_page scraper world_500 (lit "http://h.example/x") initial_state in
  fst run = Ret None
  /\ trace (snd run)
     = [EGet (lit "http://h.example/x"); EBackoffSleep 1;
        EGet (lit "http://h.example/x"); EBackoffSleep 2;
        EGet (lit "http://h.example/x"); EBackoffSleep 4]
  /\ last (trace (snd run)) = Some (EBackoffSleep 4).
Proof. vm_compute. repeat split. Qed.

(** ** The key of the rate table *)

Ltac char_lia :=
  intros;
  repeat match goal with
         | H : _ = true |- _ =>
             rewrite ?orb_true_iff, ?andb_true_iff, ?N.leb_le, ?N.eqb_eq in H
         end;
  rewrite ?negb_true_iff, ?orb_false_iff, ?N.eqb_neq, ?N.leb_gt;
  lia.

Lemma alpha_not_c0 (c : char) : is_alpha c = true -> (c <=? 32)%N = false.
Proof. unfold is_alpha. char_lia. Qed.

Lemma scheme_char_safe (c : char) :
  is_scheme_char c = true -> negb (is_unsafe c) = true.
Proof. unfold is_scheme_char, is_alpha, is_digit, is_unsafe. char_lia. Qed.

Lemma scheme_char_not_colon (c : char) :
  is_scheme_char c = true -> (c =? 58)%N = false.
Proof. unfold is_scheme_char, is_alpha, is_digit. char_lia. Qed.

Lemma delim_safe (c : char) : is_delim c = true -> negb (is_unsafe c) = true.
Proof. unfold is_delim, is_unsafe. char_lia. Qed.

Lemma filter_all (f : char -> bool) (s : str) :
  forallb f s = true -> List.filter f s = s.
Proof.
  induction s as [|c s IH]; [reflexivity|]. simpl.
  intros [Hc Hs]%andb_true_iff. rewrite Hc. f_equal. by apply IH.
Qed.

Lemma find_colon (sch tail : str) :
  forallb is_scheme_char sch = true ->
  find_char 58%N (sch ++ 58%N :: tail) = Some (length sch).
Proof.
  induction sch as [|c sch IH]; [reflexivity|]. simpl.
  intros [Hc Hs]%andb_true_iff.
  rewrite (scheme_char_not_colon c Hc), (IH Hs). reflexivity.
Qed.

Lemma splitnetloc_authority (a tail : str) :
  valid_authority a = true -> valid_tail tail = true ->
  splitnetloc (a ++ tail) = (a, tail).
Proof.
  intros Ha Ht. induction a as [|c a IH].
  - destruct tail as [|d tail]; [reflexivity|]. simpl in *. by rewrite Ht.
  - simpl in *. apply andb_true_iff in Ha as [Hc Ha].
    apply andb_true_iff in Hc as [Hc _]. apply negb_true_iff in Hc.
    rewrite Hc, (IH Ha). reflexivity.
Qed.

Lemma valid_tail_filter (tail : str) :
  valid_tail tail = true ->
  valid_tail (List.filter (fun c => negb (is_unsafe c)) tail) = true.
Proof.
  destruct tail as [|c tail]; [reflexivity|]. simpl. intros Hc.
  by rewrite (delim_safe c Hc).
Qed.

(** On a URL [scheme://authority...] the parse finds the lowered scheme and
    the authority, whatever follows. *)
Lemma urlparse_make_url (sch a tail : str) :
  valid_scheme sch = true -> valid_authority a = true -> valid_tail tail = true ->
  scheme (urlparse (make_url sch a tail)) = map lower sch
  /\ netloc (urlparse (make_url sch a tail)) = a.
Proof.
  intros Hsch Ha Ht. unfold urlparse, make_url.
  destruct sch as [|c sch]; [discriminate|].
  unfold valid_scheme in Hsch. apply andb_true_iff in Hsch as [Hc Hall].
  assert (lstrip_c0 ((c :: sch) ++ lit "://" ++ a ++ tail)
          = (c :: sch) ++ lit "://" ++ a ++ tail) as ->.
  { simpl. by rewrite (alpha_not_c0 c Hc). }
  rewrite !List.filter_app.
  rewrite (filter_all _ (c :: sch)).
  2:{ apply forallb_forall. intros x Hx. apply scheme_char_safe.
      eapply forallb_forall in Hall; eauto. }
  rewrite (filter_all _ a).
  2:{ apply forallb_forall. intros x Hx.
      eapply forallb_forall in Ha; eauto. by apply andb_true_iff in Ha as [_ ?]. }
  change (List.filter _ (lit "://")) with (58%N :: 47%N :: 47%N :: []).
  set (tail' := List.filter _ tail).
  assert (valid_tail tail' = true) as Ht' by by apply valid_tail_filter.
  unfold split_scheme.
  change ((c :: sch) ++ [58%N; 47%N; 47%N] ++ a ++ tail')
    with ((c :: sch) ++ 58%N :: (47%N :: 47%N :: a ++ tail')).
  rewrite (find_colon (c :: sch) _ Hall).
  cbn [length].
  rewrite (take_app_length' (c :: sch)) by reflexivity.
  replace (drop (S (S (length sch))) ((c :: sch) ++ 58%N :: 47%N :: 47%N :: a ++ tail'))
    with (47%N :: 47%N :: a ++ tail').
  2:{ change (S (S (length sch))) with (S (length (c :: sch))).
      rewrite <- (Nat.add_1_r (length (c :: sch))).
      by rewrite <- drop_drop, drop_app_length. }
  rewrite Hall. cbn [app]. rewrite Hc. cbn [andb].
  rewrite bool_decide_eq_true_2 by reflexivity.
  change (drop 2 (47%N :: 47%N :: a ++ tail')) with (a ++ tail').
  rewrite (splitnetloc_authority a tail' Ha Ht'). by split.
Qed.

(** C6, as the code has it: the table is keyed by the netloc of the URL, the
    authority between [//] and the next [/], [?] or [#], port included.  A
    call on [scheme://authority...] reads the entry of [authority] to decide
    whether to wait, and it writes that entry and no other, whatever the
    scheme and whatever follows the authority. *)
Theorem rate_limit_keyed_by_netloc (self : WebScraper) (env : Env) (st : State)
    (sch authority tail : str) :
  valid_scheme sch = true ->
  valid_authority authority = true ->
  plain authority = true ->
  valid_tail tail = true ->
  let run := respect_rate_limit self env (make_url sch authority tail) st in
  let now := time_time env (clock_reads st) in
  fst run = Ret ()
  /\ trace (snd run)
     = trace st
       ++ match last_request_time st !! authority with
          | Some last =>
              if Qlt_b (now - last) (rate_limit self)
              then [ERateSleep (rate_limit self - (now - last))]
              else []
          | None => []
          end
  /\ last_request_time (snd run)
     = <[authority := time_time env (S (clock_reads st))]> (last_request_time st)
  /\ dom (last_request_time (snd run)) = {[authority]} ∪ dom (last_request_time st)
  /\ forall other : str,
       other <> authority ->
       last_request_time (snd run) !! other = last_request_time st !! other.
Proof.
  intros Hsch Ha _ Ht. cbv zeta.
  destruct (urlparse_make_url sch authority tail Hsch Ha Ht) as [_ Hnetloc].
  unfold respect_rate_limit. rewrite Hnetloc. run.
  assert (forall (waits : list event) (o : outcome ()) (st' : State),
             o = Ret () ->
             st' = {| last_request_time :=
                        <[authority := time_time env (S (clock_reads st))]>
                          (last_request_time st);
                      clock_reads := S (S (clock_reads st));
                      trace := trace st ++ waits |} ->
             fst (o, st') = Ret ()
             /\ trace (snd (o, st')) = trace st ++ waits
             /\ last_request_time (snd (o, st'))
                = <[authority := time_time env (S (clock_reads st))]> (last_request_time st)
             /\ dom (last_request_time (snd (o, st')))
                = {[authority]} ∪ dom (last_request_time st)
             /\ forall other : str,
                  other <> authority ->
                  last_request_time (snd (o, st')) !! other
                  = last_request_time st !! other) as Hdone.
  { intros waits o st' -> ->. cbn [fst snd trace last_request_time].
    split; [done|]. split; [done|]. split; [done|]. split.
    - apply dom_insert_L.
    - intros other Hne. by apply lookup_insert_ne. }
  destruct (last_request_time st !! authority) as [last|].
  - destruct (Qlt_b _ _); cbn [last_request_time clock_reads trace].
    + by apply Hdone.
    + apply Hdone; [done|]. by rewrite app_nil_r.
  - cbn [last_request_time clock_reads trace].
    apply Hdone; [done|]. by rewrite app_nil_r.
Qed.

Lemma rate_limit_keyed_by_netloc_witness :
  let st1 := snd (respect_rate_limit scraper world_fast (lit "http://example.com:8443/a")
                    initial_state) in
  let run := respect_rate_limit scraper world_fast
               (make_url (lit "https") (lit "example.com:8443") (lit "/b?x=1")) st1 in
  fst run = Ret ()
  /\ trace (snd run) = [ERateSleep (90 # 100)]
  /\ dom (last_request_time (snd run)) = {[lit "example.com:8443"]}.
Proof.
  intros st1 run.
  destruct (rate_limit_keyed_by_netloc scraper world_fast st1
              (lit "https") (lit "example.com:8443") (lit "/b?x=1"))
    as (Hret & Htrace & _ & Hdom & _); try reflexivity.
  split; [exact Hret|]. split.
  - etransitivity; [exact Htrace|]. reflexivity.
  - etransitivity; [exact Hdom|]. vm_compute. reflexivity.
Defined.

(** C6, as stated, fails: [http://example.com/a] and [https://example.com/b]
    differ in scheme and share the entry [example.com], so the second call
    waits on the first; [http://example.com:8080/a] has the same host and
    gets an entry of its own, the port being part of the key. *)
Lemma rate_limit_ignores_scheme_keeps_port :
  let st1 := snd (respect_rate_limit scraper world_fast (lit "http://example.com/a")
                    initial_state) in
  let st2 := snd (respect_rate_limit scraper world_fast (lit "https://example.com/b") st1) in
  let st3 := snd (respect_rate_limit scraper world_fast (lit "http://example.com:8080/a") st1) in
  scheme (urlparse (lit "http://example.com/a"))
    <> scheme (urlparse (lit "https://example.com/b"))
  /\ dom (last_request_time st2) = {[lit "example.com"]}
  /\ trace st2 = [ERateSleep (90 # 100)]
  /\ dom (last_request_time st3) = {[lit "example.com"; lit "example.com:8080"]}
  /\ trace st3 = [].
Proof.
  intros st1 st2 st3. split; [discriminate|].
  repeat split; vm_compute; reflexivity.
Qed.

(** ** Selecting the main content *)

Lemma head_filter_Some {A} (f : A -> bool) (l : list A) (x : A) :
  head (List.filter f l) = Some x ->
  exists before after,
    l = before ++ x :: after /\ f x = true /\ Forall (fun y => f y = false) before.
Proof.
  induction l as [|a l IH]; [discriminate|]. simpl.
  destruct (f a) eqn:Hfa.
  - intros [= ->]. by exists [], l.
  - intros H. destruct (IH H) as (before & after & -> & Hx & Hbefore).
    exists (a :: before), after. repeat split; [done|]. by constructor.
Qed.

Lemma head_filter_None {A} (f : A -> bool) (l : list A) :
  head (List.filter f l) = None -> Forall (fun y => f y = false) l.
Proof.
  induction l as [|a l IH]; [constructor|]. simpl.
  destruct (f a) eqn:Hfa; [discriminate|]. intros H. constructor; auto.
Qed.

Lemma find_Some (nm : str) (doc n : node) :
  find nm doc = Some n -> first_named nm doc n.
Proof. apply head_filter_Some. Qed.

Lemma find_None (nm : str) (doc : node) :
  find nm doc = None -> absent nm doc.
Proof. apply head_filter_None. Qed.

Lemma find_all_within (nm : str) (n : node) :
  Forall (fun d => is_tag_named nm d = true /\ d ∈ descendants n) (find_all nm n).
Proof.
  apply Forall_forall. intros d Hd. apply list_elem_of_In in Hd.
  apply List.filter_In in Hd as [Hin Hname]. split; [done|].
  by apply list_elem_of_In.
Qed.

(** The selection of [main_content], case by case. *)
Lemma main_content_cases (doc : node) :
  first_named (lit "main") doc (main_content doc)
  \/ (absent (lit "main") doc
      /\ first_named (lit "article") doc (main_content doc))
  \/ (absent (lit "main") doc /\ absent (lit "article") doc
      /\ first_named (lit "section") doc (main_content doc))
  \/ (absent (lit "main") doc /\ absent (lit "article") doc
      /\ absent (lit "section") doc
      /\ first_named (lit "div") doc (main_content doc))
  \/ (absent (lit "main") doc /\ absent (lit "article") doc
      /\ absent (lit "section") doc /\ absent (lit "div") doc
      /\ main_content doc = doc).
Proof.
  unfold main_content.
  destruct (find (lit "main") doc) eqn:Hmain;
    [left; by apply find_Some | apply find_None in Hmain; right].
  destruct (find (lit "article") doc) eqn:Harticle;
    [left; split; [done | by apply find_Some] | apply find_None in Harticle; right].
  destruct (find (lit "section") doc) eqn:Hsection;
    [left; repeat split; try done; by apply find_Some
    | apply find_None in Hsection; right].
  destruct (find (lit "div") doc) eqn:Hdiv;
    [left; repeat split; try done; by apply find_Some
    | apply find_None in Hdiv; right].
  done.
Qed.

(** What [extract_content] returns when the metadata lookups succeed. *)
Lemma extract_content_Ret (self : WebScraper) (env : Env) (html url : str)
    (r : FetchResult) :
  extract_content self env html url = Ret r ->
  content r
  = match summarized self (body_text (find_all (lit "p") (main_content (cleaned_soup env html)))) with
    | [] => lit "No main content found."
    | text => text
    end
  /\ links r = list_to_set (first_links env (cleaned_soup env html) url).
Proof.
  unfold extract_content, mbind, outcome_bind.
  destruct (extract_metadata (cleaned_soup env html)) as [[[t d] k]|e]; [|discriminate].
  unfold mret, outcome_ret. intros [= <-]. simpl. split; [|reflexivity].
  by destruct (summarized self _).
Qed.

(** C9: on the document left by the removal loop, the node selected is the
    first [main]; failing that the first [article]; failing that the first
    [section]; failing that the first [div]; failing that the document
    itself.  The body text is built from the [p] tags below the selected
    node and from nothing else. *)
Theorem main_content_priority (self : WebScraper) (env : Env) (html url : str) :
  let doc := cleaned_soup env html in
  let selected := main_content doc in
  (first_named (lit "main") doc selected
   \/ (absent (lit "main") doc /\ first_named (lit "article") doc selected)
   \/ (absent (lit "main") doc /\ absent (lit "article") doc
       /\ first_named (lit "section") doc selected)
   \/ (absent (lit "main") doc /\ absent (lit "article") doc
       /\ absent (lit "section") doc /\ first_named (lit "div") doc selected)
   \/ (absent (lit "main") doc /\ absent (lit "article") doc
       /\ absent (lit "section") doc /\ absent (lit "div") doc
       /\ selected = doc))
  /\ Forall (fun p => is_tag_named (lit "p") p = true /\ p ∈ descendants selected)
            (find_all (lit "p") selected)
  /\ forall r,
       extract_content self env html url = Ret r ->
       content r
       = match summarized self
                 (take 2400
                    (join (lit " ")
                       (map (fun p => strip (get_text p)) (find_all (lit "p") selected))))
         with
         | [] => lit "No main content found."
         | text => text
         end.
Proof.
  intros doc selected. split; [apply main_content_cases|].
  split; [apply find_all_within|].
  intros r Hr. by apply extract_content_Ret in Hr as [-> _].
Qed.

Lemma main_content_priority_witness :
  main_content (cleaned_soup world_mixed mixed_page)
  = Tag (lit "article") [] [Tag (lit "p") [] [text_node "second"];
                            Tag (lit "p") [] [text_node "third"]]
  /\ exists r,
       extract_content scraper world_mixed mixed_page (lit "http://h.example/") = Ret r
       /\ content r = lit "second third".
Proof.
  split; [reflexivity|].
  eexists. split; [reflexivity|].
  rewrite (proj2 (proj2 (main_content_priority scraper world_mixed mixed_page
                           (lit "http://h.example/"))) _ eq_refl).
  reflexivity.
Defined.

(** ** Links *)

Lemma size_list_to_set_le (l : list str) :
  size (list_to_set l : gset str) <= length l.
Proof.
  induction l as [|x l IH]; [by rewrite list_to_set_nil, size_empty|].
  rewrite list_to_set_cons, size_union_alt, size_singleton. simpl.
  assert (list_to_set l ∖ {[x]} ⊆ (list_to_set l : gset str)) as Hsub
    by apply subseteq_difference_l, reflexivity.
  apply subseteq_size in Hsub. lia.
Qed.

(** C2, as the code has it: the hrefs of the anchors are resolved against
    the page URL in document order, the list is cut to its first ten
    entries, and only then are repetitions removed.  The links are the
    distinct values among the first ten resolved hrefs: never more than
    ten, and as many as there are anchors among the first ten when these
    resolve to different URLs. *)
Theorem links_from_first_ten_anchors (self : WebScraper) (env : Env)
    (html url : str) (r : FetchResult) :
  extract_content self env html url = Ret r ->
  let resolved :=
    map (urljoin env url)
        (find_all_having (lit "a") (lit "href") (cleaned_soup env html)) in
  (forall l : str, l ∈ links r <-> l ∈ take 10 resolved)
  /\ size (links r) <= 10
  /\ (NoDup (take 10 resolved) -> size (links r) = min 10 (length resolved)).
Proof.
  intros Hr resolved. apply extract_content_Ret in Hr as [_ Hlinks].
  rewrite Hlinks. unfold first_links. fold resolved.
  split; [|split].
  - intros l. apply elem_of_list_to_set.
  - etransitivity; [apply size_list_to_set_le|]. rewrite length_take. lia.
  - intros Hnodup. rewrite size_list_to_set by done. apply length_take.
Qed.

Lemma links_from_first_ten_anchors_witness :
  exists r,
    extract_content scraper world_pair pair_page (lit "http://e.org/") = Ret r
    /\ (lit "http://e.org/b" ∈ links r
        <-> lit "http://e.org/b" ∈ [lit "http://e.org/a"; lit "http://e.org/b"])
    /\ size (links r) <= 10
    /\ size (links r) = 2.
Proof.
  eexists. split; [reflexivity|].
  destruct (links_from_first_ten_anchors scraper world_pair pair_page
              (lit "http://e.org/") _ eq_refl) as (Hmem & Hle & Hsize).
  split; [exact (Hmem (lit "http://e.org/b"))|].
  split; [exact Hle|]. rewrite Hsize; [reflexivity|].
  apply (NoDup_cons_2 (lit "http://e.org/a") [lit "http://e.org/b"]).
  - intros Hin%list_elem_of_singleton. discriminate.
  - apply NoDup_singleton.
Defined.

(** C2, as stated, fails: a page with eleven anchors, ten distinct targets
    and the first target repeated once yields nine links, not ten. *)
Lemma links_cut_before_deduplication :
  exists r,
    extract_content scraper world_links links_page (lit "http://e.org/") = Ret r
    /\ size (list_to_set
               (map (urljoin world_links (lit "http://e.org/"))
                  (find_all_having (lit "a") (lit "href")
                     (cleaned_soup world_links links_page))) : gset str) = 10
    /\ size (links r) = 9.
Proof. eexists. split; [reflexivity|]. split; vm_compute; reflexivity. Qed.

(** ** The length of the content *)

Lemma body_text_length (paragraphs : list node) :
  length (body_text paragraphs) <= 2400.
Proof. unfold body_text. rewrite length_take. lia. Qed.

Lemma summarized_length (self : WebScraper) (text : str) :
  length (summarized self text) <= length text + 1
  /\ (summarize_content self = false -> summarized self text = text).
Proof.
  unfold summarized. split.
  - destruct (_ && _); [apply summarize_text_length | lia].
  - by intros ->.
Qed.

Lemma extract_content_length (self : WebScraper) (env : Env) (html url : str)
    (r : FetchResult) :
  extract_content self env html url = Ret r ->
  length (content r) <= 2401
  /\ (summarize_content self = false -> length (content r) <= 2400).
Proof.
  intros Hr. apply extract_content_Ret in Hr as [-> _].
  set (paragraphs := find_all _ _).
  pose proof (body_text_length paragraphs) as Hbody.
  destruct (summarized_length self (body_text paragraphs)) as [Hsum Hoff].
  destruct (summarized self (body_text paragraphs)) as [|c text] eqn:Hs.
  - change (length (lit "No main content found.")) with 22. lia.
  - cbv iota. split; [lia|]. intros Hflag. rewrite (Hoff Hflag). exact Hbody.
Qed.

(** C1, as the code has it: a result of [scrape_page] carries either the
    access-denied text, or ["Failed to fetch "] followed by the whole URL,
    or extracted text.  Extracted text has at most 2400 characters before
    the summarization pass and at most 2401 after it (2400 when
    summarization is off); the failure text is as long as the URL makes
    it. *)
Theorem content_length_bound (self : WebScraper) (env : Env) (url : str)
    (st st' : State) (r : FetchResult) :
  scrape_page self env url st = (Ret r, st') ->
  content r = lit "Access denied by robots.txt"
  \/ content r = lit "Failed to fetch " ++ url
  \/ (length (content r) <= 2401
      /\ (summarize_content self = false -> length (content r) <= 2400)).
Proof.
  unfold scrape_page, mbind, M_bind.
  destruct (can_fetch_run self env url st) as [allowed Hrobots]. rewrite Hrobots.
  destruct allowed; cbn [negb]; cbv beta iota.
  - destruct ((if enable_js self then fetch_js_page self env url
               else fetch_page self env url) _) as [[html|e] st2]; [|discriminate].
    destruct (falsy html).
    + intros [= <- _]. right. by left.
    + unfold lift. intros [= Hr _]. right. right.
      by eapply extract_content_length.
  - intros [= <- _]. by left.
Qed.

Lemma content_length_bound_witness :
  let url := lit "http://h.example/" in
  let r := {| title := Some (lit "No Title");
              description := Some (lit "No Description");
              keywords := Some (lit "No Keywords");
              content := lit "second third"; links := ∅ |} in
  content r = lit "Access denied by robots.txt"
  \/ content r = lit "Failed to fetch " ++ url
  \/ (length (content r) <= 2401
      /\ (summarize_content scraper = false -> length (content r) <= 2400)).
Proof.
  intros url r.
  apply (content_length_bound scraper world_mixed url initial_state
           (snd (scrape_page scraper world_mixed url initial_state)) r).
  reflexivity.
Defined.

(** C1, as stated, fails on the failure sentinel: for a URL of 2417
    characters that cannot be fetched the content has 2433. *)
Lemma failure_sentinel_exceeds_cap :
  exists r,
    fst (scrape_page scraper world_down long_url initial_state) = Ret r
    /\ content r = lit "Failed to fetch " ++ long_url
    /\ length (content r) = 2433.
Proof. eexists. split; [vm_compute; reflexivity|]. split; reflexivity. Qed.

(** The bound 2401 is reached: the cut at 2400 characters ends on [". "], the
    summary drops these two characters and adds three. *)
Lemma summary_exceeds_cap :
  exists r,
    fst (scrape_page scraper world_long (lit "http://h.example/") initial_state) = Ret r
    /\ length (content r) = 2401.
Proof. eexists. split; [vm_compute; reflexivity|]. vm_compute. reflexivity. Qed.

(** With summarization off the same page stops at 2400. *)
Example cut_without_summary :
  exists r,
    fst (scrape_page plain_scraper world_long (lit "http://h.example/") initial_state) = Ret r
    /\ length (content r) = 2400.
Proof. eexists. split; [vm_compute; reflexivity|]. vm_compute. reflexivity. Qed.

(** ** Scraping several pages *)

(** When the loop returns, every URL it was given is a key of the result. *)
Lemma scrape_loop_keys (self : WebScraper) (env : Env) (urls : list str) :
  forall (results m : gmap str FetchResult) (st st' : State),
    scrape_loop self env results urls st = (Ret m, st') ->
    dom m = dom results ∪ list_to_set urls.
Proof.
  induction urls as [|url urls IH]; intros results m st st'.
  - intros [= <- _]. rewrite list_to_set_nil. symmetry. apply (right_id_L ∅ (∪)).
  - cbn [scrape_loop]. unfold mbind, M_bind.
    destruct (scrape_page self env url st) as [[r|e] st1]; [|discriminate].
    intros Hrest. apply IH in Hrest. rewrite Hrest, dom_insert_L, list_to_set_cons.
    by rewrite (assoc_L (∪)), (comm_L (∪) (dom results) {[url]}).
Qed.

(** An exception in [scrape_page] ends the loop where it stands. *)
Lemma scrape_loop_raise (self : WebScraper) (env : Env) (url : str) (urls : list str)
    (results : gmap str FetchResult) (st st' : State) (e : exn) :
  scrape_page self env url st = (Raise e, st') ->
  scrape_loop self env results (url :: urls) st = (Raise e, st').
Proof. intros H. cbn [scrape_loop]. unfold mbind, M_bind. by rewrite H. Qed.

(** C4 fails on the code: the first page has a description [meta] tag
    without [content]; the [KeyError] of [extract_metadata] leaves
    [scrape_multiple_pages], and the second URL is never touched. *)
Theorem scrape_multiple_pages_key_error :
  let run := scrape_multiple_pages scraper world_meta
               [lit "http://a.example/"; lit "http://b.example/"] initial_state in
  fst run = Raise (KeyError (lit "content"))
  /\ trace (snd run)
     = [ERobotsRead (lit "http://a.example/robots.txt"); EGet (lit "http://a.example/")].
Proof. vm_compute. split; reflexivity. Qed.

(** * Further properties of the scraper *)

Import Worlds.

(** ** The retry loop in every environment *)

Lemma respect_rate_limit_events (self : WebScraper) (env : Env) (url : str) (st : State) :
  exists waits,
    respect_rate_limit self env url st
    = (Ret (),
       {| last_request_time :=
            <[netloc (urlparse url) := time_time env (S (clock_reads st))]>
              (last_request_time st);
          clock_reads := S (S (clock_reads st));
          trace := trace st ++ waits |})
    /\ without_rate_sleeps waits = []
    /\ Forall (fun e => fetch_event url e = true) waits.
Proof.
  unfold respect_rate_limit. run.
  destruct (last_request_time st !! netloc (urlparse url)) as [last|].
  - destruct (Qlt_b _ _).
    + eexists [_]. repeat split. by repeat constructor.
    + exists []. rewrite app_nil_r. by repeat split.
  - exists []. rewrite app_nil_r. by repeat split.
Qed.

(** The loop stops at the first request that succeeds; the attempts before
    it failed and were each followed by a sleep. *)
Lemma fetch_attempts_shape (self : WebScraper) (env : Env) (url : str)
    (attempts : list nat) (st : State) :
  exists st' added failed later result,
    fetch_attempts self env url attempts st = (Ret result, st')
    /\ trace st' = trace st ++ added
    /\ attempts = failed ++ later
    /\ Forall (fun e => fetch_event url e = true) added
    /\ without_rate_sleeps added
       = flat_map (failed_attempt url) failed
         ++ match result with Some _ => [EGet url] | None => [] end
    /\ match result with
       | None => later = []
       | Some text =>
           later <> []
           /\ exists h status,
                requests_get env h url (user_agent self) = Response status text
                /\ raise_for_status status = false
       end.
Proof.
  revert st. induction attempts as [|attempt rest IH]; intros st.
  - exists st, [], [], [], None. rewrite app_nil_r. by repeat split.
  - destruct (respect_rate_limit_events self env url st) as (waits & Hrate & Hwaits & Hev).
    cbn [fetch_attempts]. unfold mbind at 1. unfold M_bind at 1. rewrite Hrate.
    run.
    pose (st1 := {| last_request_time :=
                      <[netloc (urlparse url) := time_time env (S (clock_reads st))]>
                        (last_request_time st);
                    clock_reads := S (S (clock_reads st));
                    trace := ((trace st ++ waits) ++ [EGet url])
                               ++ [EBackoffSleep (2 ^ Z.of_nat attempt)] |}).
    assert (fetch_event url (EGet url) = true) as Hget
      by (simpl; by apply bool_decide_eq_true_2).
    assert (exists st' added failed later result,
               fetch_attempts self env url rest st1 = (Ret result, st')
               /\ trace st' = trace st ++ added
               /\ attempt :: rest = failed ++ later
               /\ Forall (fun e => fetch_event url e = true) added
               /\ without_rate_sleeps added
                  = flat_map (failed_attempt url) failed
                    ++ match result with Some _ => [EGet url] | None => [] end
               /\ match result with
                  | None => later = []
                  | Some text =>
                      later <> []
                      /\ exists h status,
                           requests_get env h url (user_agent self) = Response status text
                           /\ raise_for_status status = false
                  end) as Hfailed.
    { destruct (IH st1) as (st' & added & failed & later & result
                            & Hrun & Htrace & Hsplit & Hall & Hshape & Hres).
      exists st', (waits ++ failed_attempt url attempt ++ added),
        (attempt :: failed), later, result.
      split; [done|]. split.
      { rewrite Htrace. subst st1. simpl. by rewrite <- !app_assoc. }
      split; [by rewrite Hsplit|]. split.
      { apply Forall_app. split; [done|]. apply Forall_app. split; [|done].
        by repeat constructor. }
      split; [|done].
      rewrite !without_rate_sleeps_app, Hwaits, Hshape. reflexivity. }
    destruct (requests_get env (trace st ++ waits) url (user_agent self))
      as [status text|] eqn:Hreq; [|exact Hfailed].
    destruct (raise_for_status status) eqn:Hstatus; [exact Hfailed|].
    eexists _, (waits ++ [EGet url]), [], (attempt :: rest), (Some text).
    split; [reflexivity|]. cbn [trace]. split; [by rewrite <- app_assoc|].
    split; [done|]. split.
    { apply Forall_app. split; [done|]. by repeat constructor. }
    split.
    { rewrite without_rate_sleeps_app, Hwaits. reflexivity. }
    split; [done|]. by exists (trace st ++ waits), status.
Qed.







Lemma backoff_seconds_filter (h : list event) :
  backoff_seconds (without_rate_sleeps h) = backoff_seconds h.
Proof.
  induction h as [|e h IH]; [reflexivity|].
  destruct e; simpl; by rewrite ?IH.
Qed.

Lemma backoff_seconds_failed (url : str) (start n : nat) :
  backoff_seconds (flat_map (failed_attempt url) (seq start n))
  = (2 ^ Z.of_nat (start + n) - 2 ^ Z.of_nat start)%Z.
Proof.
  revert start. induction n as [|n IH]; intros start.
  - rewrite Nat.add_0_r. simpl. lia.
  - cbn [seq flat_map failed_attempt app backoff_seconds]. rewrite IH.
    replace (Z.of_nat (S start + n)) with (Z.of_nat (start + S n)) by lia.
    replace (Z.of_nat (S start)) with (Z.succ (Z.of_nat start)) by lia.
    rewrite Z.pow_succ_r by lia. lia.
Qed.

Lemma count_gets_failed (url : str) (attempts : list nat) :
  length (List.filter is_get (flat_map (failed_attempt url) attempts)) = length attempts.
Proof. induction attempts as [|a l IH]; [reflexivity|]. simpl. by rewrite IH. Qed.

Lemma filter_get_without_rate_sleeps (h : list event) :
  List.filter is_get (without_rate_sleeps h) = List.filter is_get h.
Proof.
  induction h as [|e h IH]; [reflexivity|].
  destruct e; simpl; by rewrite ?IH.
Qed.

(** X2: when every request fails, [fetch_page] issues exactly [max_retries]
    requests and sleeps [2 ^ max_retries - 1] seconds of backoff in all,
    whatever [max_retries] is. *)
Theorem fetch_page_exhausted (self : WebScraper) (env : Env) (url : str) (st : State) :
  (forall h, request_fails (requests_get env h url (user_agent self)) = true) ->
  exists st' added,
    fetch_page self env url st = (Ret None, st')
    /\ trace st' = trace st ++ added
    /\ length (List.filter is_get added) = max_retries self
    /\ backoff_seconds added = (2 ^ Z.of_nat (max_retries self) - 1)%Z.
Proof.
  intros Hfail. unfold fetch_page.
  destruct (fetch_attempts_all_fail self env url (seq 0 (max_retries self)) st Hfail)
    as (st' & added & Hrun & Htrace & Hadded).
  exists st', added. split; [done|]. split; [done|]. split.
  - rewrite <- filter_get_without_rate_sleeps, Hadded.
    fold (failed_attempt url). by rewrite count_gets_failed, length_seq.
  - rewrite <- backoff_seconds_filter, Hadded. fold (failed_attempt url).
    rewrite backoff_seconds_failed. simpl. lia.
Qed.

Lemma fetch_page_exhausted_witness :
  exists st' added,
    fetch_page patient_scraper world_500 (lit "http://h.example/x") initial_state
    = (Ret None, st')
    /\ trace st' = trace initial_state ++ added
    /\ length (List.filter is_get added) = 5
    /\ backoff_seconds added = 31%Z.
Proof.
  apply (fetch_page_exhausted patient_scraper world_500 (lit "http://h.example/x")
           initial_state).
  intros h. reflexivity.
Defined.

Example fetch_page_flaky :
  let run := fetch_page scraper world_flaky (lit "http://h.example/x") initial_state in
  fst run = Ret (Some mixed_page)
  /\ trace (snd run)
     = [EGet (lit "http://h.example/x"); EBackoffSleep 1;
        EGet (lit "http://h.example/x"); EBackoffSleep 2;
        EGet (lit "http://h.example/x")].
Proof. vm_compute. split; reflexivity. Qed.



(** ** The rate limiter *)

Lemma Qlt_b_true (x y : Q) : Qlt_b x y = true <-> (x < y)%Q.
Proof.
  unfold Qlt_b. rewrite negb_true_iff. split.
  - intros H. apply Qnot_le_lt. intros Hle. apply Qle_bool_iff in Hle. congruence.
  - intros H. destruct (Qle_bool y x) eqn:Hb; [|reflexivity].
    apply Qle_bool_iff in Hb. exfalso. by apply (Qlt_not_le x y).
Qed.

(** X4: [respect_rate_limit] sleeps at most once, and only when the netloc
    of the URL already has an entry; the sleep is strictly positive, and it
    is at most [rate_limit] when the clock has not gone back behind the
    stored reading.  The first request to a netloc is never delayed. *)
Theorem respect_rate_limit_sleep (self : WebScraper) (env : Env) (url : str)
    (st : State) :
  let st' := snd (respect_rate_limit self env url st) in
  (last_request_time st !! netloc (urlparse url) = None -> trace st' = trace st)
  /\ (trace st' = trace st
      \/ exists secs last,
           trace st' = trace st ++ [ERateSleep secs]
           /\ last_request_time st !! netloc (urlparse url) = Some last
           /\ (0 < secs)%Q
           /\ ((last <= time_time env (clock_reads st))%Q -> (secs <= rate_limit self)%Q)).
Proof.
  unfold respect_rate_limit. run.
  destruct (last_request_time st !! netloc (urlparse url)) as [last|] eqn:Hlast.
  - split; [discriminate|].
    destruct (Qlt_b _ _) eqn:Hlt; [|by left].
    right. eexists _, last. split; [reflexivity|]. split; [reflexivity|].
    apply Qlt_b_true in Hlt.
    set (now := time_time env (clock_reads st)) in *.
    set (limit := rate_limit self) in *.
    split; [lra|]. intros Hmono. lra.
  - split; [reflexivity | by left].
Qed.

Lemma respect_rate_limit_sleep_witness :
  trace (snd (respect_rate_limit scraper world_fast (lit "http://example.com/a")
                initial_state))
  = trace initial_state.
Proof.
  apply (proj1 (respect_rate_limit_sleep scraper world_fast (lit "http://example.com/a")
                  initial_state)).
  reflexivity.
Defined.

Lemma fetch_attempts_table (self : WebScraper) (env : Env) (url : str)
    (attempts : list nat) :
  forall (st st' : State) (o : outcome (option str)),
    fetch_attempts self env url attempts st = (o, st') ->
    (forall other : str,
        other <> netloc (urlparse url) ->
        last_request_time st' !! other = last_request_time st !! other)
    /\ (is_Some (last_request_time st !! netloc (urlparse url)) \/ attempts <> [] ->
        is_Some (last_request_time st' !! netloc (urlparse url))).
Proof.
  induction attempts as [|attempt rest IH]; intros st st' o.
  - intros [= _ <-]. split; [done|]. by intros [?|?].
  - destruct (respect_rate_limit_events self env url st) as (waits & Hrate & _ & _).
    cbn [fetch_attempts]. unfold mbind at 1. unfold M_bind at 1. rewrite Hrate.
    run.
    assert (forall st1 : State,
               last_request_time st1
               = <[netloc (urlparse url) := time_time env (S (clock_reads st))]>
                   (last_request_time st) ->
               fetch_attempts self env url rest st1 = (o, st') ->
               (forall other : str,
                   other <> netloc (urlparse url) ->
                   last_request_time st' !! other = last_request_time st !! other)
               /\ is_Some (last_request_time st' !! netloc (urlparse url))) as Hrest.
    { intros st1 Htable Hrun. apply IH in Hrun as [Hother Hkey]. split.
      - intros other Hne. rewrite (Hother other Hne), Htable.
        by apply lookup_insert_ne.
      - apply Hkey. left. rewrite Htable, lookup_insert_eq. by eexists. }
    assert (forall text : str,
               (Ret (Some text),
                {| last_request_time :=
                     <[netloc (urlparse url) := time_time env (S (clock_reads st))]>
                       (last_request_time st);
                   clock_reads := S (S (clock_reads st));
                   trace := (trace st ++ waits) ++ [EGet url] |}) = (o, st') ->
               (forall other : str,
                   other <> netloc (urlparse url) ->
                   last_request_time st' !! other = last_request_time st !! other)
               /\ is_Some (last_request_time st' !! netloc (urlparse url))) as Hdone.
    { intros text [= _ <-]. cbn [last_request_time]. split.
      - intros other Hne. by apply lookup_insert_ne.
      - rewrite lookup_insert_eq. by eexists. }
    intros Hrun.
    cut ((forall other : str,
             other <> netloc (urlparse url) ->
             last_request_time st' !! other = last_request_time st !! other)
         /\ is_Some (last_request_time st' !! netloc (urlparse url))).
    { intros [? ?]. by split. }
    destruct (requests_get env (trace st ++ waits) url (user_agent self))
      as [status text|].
    + destruct (raise_for_status status).
      * eapply Hrest; [|exact Hrun]. reflexivity.
      * by eapply Hdone.
    + eapply Hrest; [|exact Hrun]. reflexivity.
Qed.

(** ** One page, in every environment *)

(** What a call of [scrape_page] adds to the history and does to the table:
    the robots read comes first; with rendering on, at most one render call
    follows and table and clock are left alone; with rendering off, only
    events of the retry loop follow and only the entry of the URL's netloc
    can change. *)
Lemma scrape_page_events (self : WebScraper) (env : Env) (url : str) (st : State) :
  exists o st' added,
    scrape_page self env url st = (o, st')
    /\ trace st' = trace st ++ ERobotsRead (robots_url_of url) :: added
    /\ (forall other : str,
           other <> netloc (urlparse url) ->
           last_request_time st' !! other = last_request_time st !! other)
    /\ if enable_js self
       then (added = [] \/ added = [ERender url])
            /\ last_request_time st' = last_request_time st
            /\ clock_reads st' = clock_reads st
       else Forall (fun e => fetch_event url e = true) added.
Proof.
  unfold scrape_page, mbind, M_bind.
  destruct (can_fetch_run self env url st) as [allowed ->].
  destruct allowed; cbn [negb]; cbv beta iota.
  - destruct (enable_js self) eqn:Hjs.
    + unfold fetch_js_page. rewrite Hjs. run.
      destruct (falsy (render env _ url (user_agent self)));
        [|unfold lift]; eexists _, _, [ERender url]; cbn [trace last_request_time clock_reads];
        (split; [reflexivity|]); (split; [by rewrite <- app_assoc|]);
        (split; [done|]); by (split; [right|]).
    + unfold fetch_page.
      destruct (fetch_attempts_shape self env url (seq 0 (max_retries self))
                  {| last_request_time := last_request_time st;
                     clock_reads := clock_reads st;
                     trace := trace st ++ [ERobotsRead (robots_url_of url)] |})
        as (st' & added & failed & later & result & Hrun & Htrace & _ & Hall & _ & _).
      pose proof (fetch_attempts_table self env url _ _ _ _ Hrun) as [Hother _].
      rewrite Hrun.
      destruct (falsy result); [|unfold lift]; eexists _, st', added;
        (split; [reflexivity|]);
        (split; [rewrite Htrace; cbn [trace]; by rewrite <- app_assoc|]);
        by split.
  - eexists _, _, []. cbn [trace last_request_time clock_reads].
    split; [reflexivity|]. split; [done|]. split; [done|].
    destruct (enable_js self); [|done]. by (split; [left|]).
Qed.

(** X5: scraping a URL can change the rate-limit entry of that URL's netloc
    and of no other. *)
Theorem scrape_page_touches_own_entry (self : WebScraper) (env : Env) (url : str)
    (st : State) (other : str) :
  other <> netloc (urlparse url) ->
  last_request_time (snd (scrape_page self env url st)) !! other
  = last_request_time st !! other.
Proof.
  intros Hne.
  destruct (scrape_page_events self env url st) as (o & st' & added & -> & _ & Hother & _).
  by apply Hother.
Qed.

Lemma scrape_page_touches_own_entry_witness :
  last_request_time
    (snd (scrape_page scraper world_mixed (lit "http://h.example/x")
            (snd (scrape_page scraper world_mixed (lit "http://g.example/y")
                    initial_state))))
    !! lit "g.example"
  = last_request_time
      (snd (scrape_page scraper world_mixed (lit "http://g.example/y") initial_state))
      !! lit "g.example".
Proof.
  apply (scrape_page_touches_own_entry scraper world_mixed (lit "http://h.example/x")).
  discriminate.
Defined.

(** X6: with rendering on, [scrape_page] reads the robots document and then
    makes at most one render call: no [requests.get], no retry, no backoff,
    and the rate limiter is not consulted, so table and clock stay as they
    were. *)
Theorem scrape_page_rendered (self : WebScraper) (env : Env) (url : str) (st : State) :
  enable_js self = true ->
  let st' := snd (scrape_page self env url st) in
  (trace st' = trace st ++ [ERobotsRead (robots_url_of url)]
   \/ trace st' = trace st ++ [ERobotsRead (robots_url_of url); ERender url])
  /\ last_request_time st' = last_request_time st
  /\ clock_reads st' = clock_reads st.
Proof.
  intros Hjs.
  destruct (scrape_page_events self env url st) as (o & st' & added & -> & Htrace & _ & Hrest).
  rewrite Hjs in Hrest. destruct Hrest as ([-> | ->] & Htable & Hclock);
    cbn [snd]; (split; [|done]); [by left | by right].
Qed.

Lemma scrape_page_rendered_witness :
  let st' := snd (scrape_page js_scraper world_rendered (lit "http://h.example/")
                    initial_state) in
  (trace st' = trace initial_state ++ [ERobotsRead (robots_url_of (lit "http://h.example/"))]
   \/ trace st' = trace initial_state
                  ++ [ERobotsRead (robots_url_of (lit "http://h.example/"));
                      ERender (lit "http://h.example/")])
  /\ last_request_time st' = last_request_time initial_state
  /\ clock_reads st' = clock_reads initial_state.
Proof.
  apply (scrape_page_rendered js_scraper world_rendered (lit "http://h.example/")
           initial_state).
  reflexivity.
Defined.

Lemma fetch_event_kind (url : str) (e : event) :
  fetch_event url e = true -> is_render e = false /\ is_robots_read e = false.
Proof. by destruct e. Qed.

Lemma filter_none {A} (f : A -> bool) (l : list A) :
  Forall (fun x => f x = false) l -> List.filter f l = [].
Proof.
  induction 1 as [|x l Hx _ IH]; [reflexivity|]. simpl. by rewrite Hx.
Qed.

(** One page: one robots read; no render call unless rendering is on. *)
Lemma scrape_page_summary (self : WebScraper) (env : Env) (url : str) (st : State) :
  exists o st' added,
    scrape_page self env url st = (o, st')
    /\ trace st' = trace st ++ added
    /\ List.filter is_robots_read added = [ERobotsRead (robots_url_of url)]
    /\ (enable_js self = false -> Forall (fun e => is_render e = false) added).
Proof.
  destruct (scrape_page_events self env url st)
    as (o & st' & added & Hrun & Htrace & _ & Hrest).
  exists o, st', (ERobotsRead (robots_url_of url) :: added).
  split; [done|]. split; [done|].
  destruct (enable_js self).
  - destruct Hrest as ([-> | ->] & _). all: by split.
  - split.
    + simpl. f_equal. apply filter_none.
      eapply Forall_impl; [exact Hrest|]. intros e He. by apply fetch_event_kind in He as [? ?].
    + intros _. constructor; [done|].
      eapply Forall_impl; [exact Hrest|]. intros e He. by apply fetch_event_kind in He as [? ?].
Qed.

(** The loop: the pages processed are a prefix of the list; all of it when
    the loop returns. *)
Lemma scrape_loop_events (self : WebScraper) (env : Env) (urls : list str) :
  forall (results : gmap str FetchResult) (st : State),
    exists o st' added processed,
      scrape_loop self env results urls st = (o, st')
      /\ trace st' = trace st ++ added
      /\ List.filter is_robots_read added
         = map (fun u => ERobotsRead (robots_url_of u)) processed
      /\ (enable_js self = false -> Forall (fun e => is_render e = false) added)
      /\ processed `prefix_of` urls
      /\ match o with Ret _ => processed = urls | Raise _ => processed <> [] end.
Proof.
  induction urls as [|url urls IH]; intros results st.
  - exists (Ret results), st, [], []. rewrite app_nil_r.
    split; [reflexivity|]. split; [done|]. split; [done|]. split; [by constructor|].
    by split.
  - destruct (scrape_page_summary self env url st)
      as (o & st1 & added1 & Hrun1 & Htrace1 & Hrobots1 & Hrender1).
    cbn [scrape_loop]. unfold mbind, M_bind. rewrite Hrun1.
    destruct o as [r|e].
    + destruct (IH (<[url := r]> results) st1)
        as (o & st' & added & processed & Hrun & Htrace & Hrobots & Hrender & Hprefix & Ho).
      exists o, st', (added1 ++ added), (url :: processed).
      split; [done|]. split; [by rewrite Htrace, Htrace1, app_assoc|].
      split; [by rewrite List.filter_app, Hrobots1, Hrobots|].
      split; [intros Hjs; apply Forall_app; by split; [apply Hrender1|apply Hrender]|].
      split; [by apply prefix_cons|].
      destruct o; [by rewrite Ho | done].
    + exists (Raise e), st1, added1, [url].
      split; [done|]. split; [done|]. split; [done|]. split; [done|].
      split; [|done]. by apply prefix_cons, prefix_nil.
Qed.

(** ** Several pages *)

(** X7: a scraper built without Playwright installed never renders, whatever
    [enable_js] was asked for: no call of [scrape_multiple_pages] adds a
    render event to the history. *)
Theorem no_playwright_no_render (ua : str) (rl tmo : Q) (retries : nat)
    (js summarize : bool) (env : Env) (urls : list str) (st : State) :
  let self := init ua rl tmo retries js summarize false in
  exists added,
    trace (snd (scrape_multiple_pages self env urls st)) = trace st ++ added
    /\ Forall (fun e => is_render e = false) added.
Proof.
  intros self. unfold scrape_multiple_pages.
  destruct (scrape_loop_events self env urls ∅ st)
    as (o & st' & added & processed & -> & Htrace & _ & Hrender & _).
  exists added. split; [done|]. apply Hrender.
  unfold self, init. cbn [enable_js]. by rewrite andb_false_r.
Qed.

(** X8: when [scrape_multiple_pages] returns, the keys of the mapping are
    exactly the URLs it was given, so repeated URLs share one entry, and the
    robots document was read once per list entry, in list order: nothing is
    remembered from one URL to the next, not even for the same site. *)
Theorem scrape_multiple_pages_returns (self : WebScraper) (env : Env)
    (urls : list str) (st st' : State) (m : gmap str FetchResult) :
  scrape_multiple_pages self env urls st = (Ret m, st') ->
  dom m = list_to_set urls
  /\ size m <= length urls
  /\ exists added,
       trace st' = trace st ++ added
       /\ List.filter is_robots_read added
          = map (fun u => ERobotsRead (robots_url_of u)) urls.
Proof.
  intros Hrun. unfold scrape_multiple_pages in Hrun.
  pose proof (scrape_loop_keys self env urls _ _ _ _ Hrun) as Hdom.
  rewrite dom_empty_L, (left_id_L ∅ (∪)) in Hdom.
  split; [done|]. split.
  - rewrite <- size_dom, Hdom. apply size_list_to_set_le.
  - destruct (scrape_loop_events self env urls ∅ st)
      as (o & st1 & added & processed & Hrun' & Htrace & Hrobots & _ & _ & Ho).
    rewrite Hrun in Hrun'. injection Hrun' as <- <-. subst processed.
    by exists added.
Qed.

Lemma scrape_multiple_pages_returns_witness :
  let urls := [lit "http://h.example/a"; lit "http://h.example/b";
               lit "http://h.example/a"] in
  let run := scrape_multiple_pages scraper world_mixed urls initial_state in
  exists m,
    fst run = Ret m
    /\ size m <= 3
    /\ exists added,
         trace (snd run) = trace initial_state ++ added
         /\ List.filter is_robots_read added
            = [ERobotsRead (lit "http://h.example/robots.txt");
               ERobotsRead (lit "http://h.example/robots.txt");
               ERobotsRead (lit "http://h.example/robots.txt")].
Proof.
  intros urls run.
  assert (exists m, fst run = Ret m) as [m Hm] by (vm_compute; eexists; reflexivity).
  exists m. split; [exact Hm|].
  assert (scrape_multiple_pages scraper world_mixed urls initial_state
          = (Ret m, snd run)) as Hrun.
  { rewrite <- Hm. apply surjective_pairing. }
  destruct (scrape_multiple_pages_returns scraper world_mixed urls initial_state
              (snd run) m Hrun) as (_ & Hsize & Hreads).
  split; [exact Hsize | exact Hreads].
Defined.

(** ** Cleaning the document *)

(** Induction on documents: a tag has the property when its children do. *)
Lemma node_induction (P : node -> Prop) :
  (forall s, P (NavigableString s)) ->
  (forall s, P (Comment s)) ->
  (forall nm a cs, Forall P cs -> P (Tag nm a cs)) ->
  forall n, P n.
Proof.
  intros Hstring Hcomment Htag.
  fix IH 1. intros [s|s|nm a cs]; [apply Hstring | apply Hcomment |].
  apply Htag. induction cs as [|c cs IHcs]; constructor; [apply IH | exact IHcs].
Qed.

Lemma is_tag_named_decompose (names : list str) (nm : str) (n : node) :
  is_tag_named nm (decompose_all names n) = is_tag_named nm n.
Proof. by destruct n. Qed.

Lemma unwanted_decompose (names : list str) (n : node) :
  unwanted names (decompose_all names n) = unwanted names n.
Proof.
  unfold unwanted.
  assert (forall l : list str,
             existsb (fun x => is_tag_named x (decompose_all names n)) l
             = existsb (fun x => is_tag_named x n) l) as Hall; [|apply Hall].
  induction l as [|x l IH]; [reflexivity|]. simpl.
  by rewrite is_tag_named_decompose, IH.
Qed.

Lemma descendants_decompose (names : list str) (n : node) :
  Forall (fun d => unwanted names d = false) (descendants (decompose_all names n)).
Proof.
  induction n as [s|s|nm a cs IH] using node_induction; [constructor..|].
  cbn [decompose_all descendants].
  induction cs as [|c cs IHcs]; [constructor|].
  apply Forall_cons in IH as [Hc Hcs]. specialize (IHcs Hcs).
  cbn [flat_map]. fold (unwanted names c).
  destruct (unwanted names c) eqn:Hunwanted; [exact IHcs|].
  cbn [app flat_map]. constructor.
  - by rewrite unwanted_decompose.
  - apply Forall_app. by split.
Qed.

Lemma decompose_clean (names : list str) (n : node) :
  Forall (fun d => unwanted names d = false) (descendants n) ->
  decompose_all names n = n.
Proof.
  induction n as [s|s|nm a cs IH] using node_induction; [reflexivity..|].
  cbn [decompose_all descendants]. intros Hclean. f_equal.
  induction cs as [|c cs IHcs]; [reflexivity|].
  apply Forall_cons in IH as [Hc Hcs].
  cbn [flat_map] in Hclean. apply Forall_app in Hclean as [Hhead Htail].
  apply Forall_cons in Hhead as [Hname Hbelow].
  cbn [flat_map]. fold (unwanted names c). rewrite Hname.
  cbn [app]. f_equal; [by apply Hc | by apply IHcs].
Qed.

Lemma unwanted_false (names : list str) (nm : str) (d : node) :
  unwanted names d = false -> nm ∈ names -> is_tag_named nm d = false.
Proof.
  unfold unwanted. intros Hnone Hin. apply list_elem_of_In in Hin.
  destruct (is_tag_named nm d) eqn:Hnm; [|reflexivity].
  assert (existsb (fun x => is_tag_named x d) names = true) as Hsome
    by (apply existsb_exists; by exists nm).
  congruence.
Qed.

(** X9: after the removal loop no [script], [style], [nav], [footer] or
    [header] tag is left at any depth of the document; running the loop
    again changes nothing; and a document that has none of these tags is
    left exactly as parsed. *)
Theorem cleaned_soup_clean (env : Env) (html : str) :
  (forall nm : str, nm ∈ removed_tags -> absent nm (cleaned_soup env html))
  /\ decompose_all removed_tags (cleaned_soup env html) = cleaned_soup env html
  /\ (Forall (fun d => unwanted removed_tags d = false)
             (flat_map (fun c => c :: descendants c) (html_parser env html)) ->
      cleaned_soup env html = Tag (lit "[document]") [] (html_parser env html)).
Proof.
  unfold cleaned_soup. split; [|split].
  - intros nm Hnm. unfold absent.
    eapply Forall_impl; [apply descendants_decompose|].
    intros d Hd. exact (unwanted_false removed_tags nm d Hd Hnm).
  - apply decompose_clean, descendants_decompose.
  - intros Hclean. apply decompose_clean. exact Hclean.
Qed.

Lemma cleaned_soup_clean_witness :
  cleaned_soup world_pair pair_page = Tag (lit "[document]") [] pair_doc.
Proof.
  apply (proj2 (proj2 (cleaned_soup_clean world_pair pair_page))).
  vm_compute. repeat constructor.
Defined.

Example cleaned_script_page :
  decompose_all removed_tags (Tag (lit "[document]") [] script_doc)
  = Tag (lit "[document]") []
      [Tag (lit "p") [] [text_node "before"; text_node "after"]].
Proof. reflexivity. Qed.

(** ** What extraction returns *)




Lemma summarized_nil (self : WebScraper) : summarized self [] = [].
Proof. unfold summarized. by rewrite andb_false_r. Qed.

(** X11: when the selected node has no [p] tag below it, the content is the
    literal ["No main content found."], whatever paragraphs the rest of the
    document holds. *)
Theorem extract_content_no_paragraph (self : WebScraper) (env : Env)
    (html url : str) (r : FetchResult) :
  extract_content self env html url = Ret r ->
  find_all (lit "p") (main_content (cleaned_soup env html)) = [] ->
  content r = lit "No main content found.".
Proof.
  intros Hr Hnone. apply extract_content_Ret in Hr as [-> _].
  rewrite Hnone. change (body_text []) with (@nil char).
  by rewrite summarized_nil.
Qed.

Lemma extract_content_no_paragraph_witness :
  exists r,
    extract_content scraper world_empty_div empty_div_page (lit "http://h.example/") = Ret r
    /\ content r = lit "No main content found.".
Proof.
  eexists. split; [reflexivity|].
  apply (extract_content_no_paragraph scraper world_empty_div empty_div_page
           (lit "http://h.example/")); reflexivity.
Defined.

(** X12: the content of a result of [scrape_page] is never the empty
    string. *)
Theorem scrape_page_content_nonempty (self : WebScraper) (env : Env) (url : str)
    (st st' : State) (r : FetchResult) :
  scrape_page self env url st = (Ret r, st') -> content r <> [].
Proof.
  unfold scrape_page, mbind, M_bind.
  destruct (can_fetch_run self env url st) as [allowed ->].
  destruct allowed; cbn [negb]; cbv beta iota.
  - destruct ((if enable_js self then fetch_js_page self env url
               else fetch_page self env url) _) as [[html|e] st2]; [|discriminate].
    destruct (falsy html).
    + by intros [= <- _].
    + unfold lift. intros [= Hr _]. apply extract_content_Ret in Hr as [-> _].
      by destruct (summarized self _).
  - by intros [= <- _].
Qed.

Lemma scrape_page_content_nonempty_witness :
  content (sentinel (lit "Failed to fetch http://h.example/")) <> [].
Proof.
  apply (scrape_page_content_nonempty scraper world_empty (lit "http://h.example/")
           initial_state
           (snd (scrape_page scraper world_empty (lit "http://h.example/") initial_state))).
  reflexivity.
Defined.

(** * The pipeline *)

Import Pipeline.

(** ** The scraping loop of the pipeline *)

Lemma scrape_each_other (env : Env) (urls : list str) (url : str) :
  url ∉ urls ->
  forall (data : gmap str FetchResult) (st : State),
    fst (scrape_each env urls data st) !! url = data !! url.
Proof.
  induction urls as [|u urls IH]; intros Hnotin data st; [reflexivity|].
  apply not_elem_of_cons in Hnotin as [Hne Hnotin].
  cbn [scrape_each].
  destruct (scrape_page web_scraper env u st) as [[r|e] st1].
  - rewrite (IH Hnotin). by apply lookup_insert_ne.
  - by apply IH.
Qed.

(** A URL whose every scrape returns [r] ends up with [r]. *)
Lemma scrape_each_always (env : Env) (url : str) (r : FetchResult) (urls : list str) :
  (forall st, fst (scrape_page web_scraper env url st) = Ret r) ->
  forall (data : gmap str FetchResult) (st : State),
    url ∈ urls \/ data !! url = Some r ->
    fst (scrape_each env urls data st) !! url = Some r.
Proof.
  intros Halways. induction urls as [|u urls IH]; intros data st Hin.
  - destruct Hin as [Hin|Hin]; [by apply elem_of_nil in Hin | done].
  - cbn [scrape_each].
    destruct (scrape_page web_scraper env u st) as [[r1|e] st1] eqn:Hrun.
    + apply IH. destruct (decide (u = url)) as [->|Hne].
      * right. specialize (Halways st). rewrite Hrun in Halways.
        injection Halways as ->. apply lookup_insert_eq.
      * destruct Hin as [Hin|Hin].
        -- apply elem_of_cons in Hin as [Heq|Hin]; [congruence | by left].
        -- right. by rewrite lookup_insert_ne.
    + apply IH. destruct (decide (u = url)) as [->|Hne].
      * specialize (Halways st). rewrite Hrun in Halways. discriminate.
      * destruct Hin as [Hin|Hin]; [|by right].
        apply elem_of_cons in Hin as [Heq|Hin]; [congruence | by left].
Qed.


(** ** Compiling the results *)

Lemma compile_results_filter (skip : bool) (data : gmap str FetchResult)
    (srs : list SearchResult) :
  compile_results skip data srs
  = map (entry_of data)
        (List.filter (fun sr => negb (skip && restricted (data !! sr_link sr))) srs).
Proof.
  induction srs as [|sr srs IH]; [reflexivity|].
  unfold compile_results in *. cbn [flat_map List.filter].
  rewrite IH. by destruct (skip && restricted (data !! sr_link sr)).
Qed.

(** The run of the method when the query is not cached and the search finds
    something. *)
Lemma search_and_scrape_miss (co : Collaborators) (env : Env) (query : str)
    (skip : bool) (tr : option str) (inc exc : option (list str)) (app : App)
    (rq : option str) (sr : SearchResult) (srs : list SearchResult) :
  reformulate_query co query = Returns rq ->
  cache app !! rq = None ->
  search co rq tr inc exc = Returns (sr :: srs) ->
  let run := scrape_each env (map sr_link (sr :: srs)) ∅ (scraper_state app) in
  let combined := compile_results skip (fst run) (sr :: srs) in
  let text := join (lit " ") (map c_scraped_content combined) in
  let made := calls app ++ [CReformulate query; CSearch rq; CGenerate query text] in
  search_and_scrape co env query skip tr inc exc app
  = match generate_final_answer co query text with
    | Throws =>
        (Escaped, {| scraper_state := snd run; cache := cache app; calls := made |})
    | Returns answer =>
        (Done {| results := combined; final_answer := answer |},
         {| scraper_state := snd run;
            cache := <[rq := {| results := combined; final_answer := answer |}]> (cache app);
            calls := made |})
    end.
Proof.
  intros Hrq Hmiss Hsearch run combined text made.
  unfold search_and_scrape, log. rewrite Hrq. cbn [cache]. rewrite Hmiss, Hsearch.
  cbn [scraper_state calls]. subst made text combined run.
  destruct (scrape_each env (map sr_link (sr :: srs)) ∅ (scraper_state app))
    as [data st'].
  cbn [fst snd]. rewrite <- !app_assoc.
  by destruct (generate_final_answer co query _).
Qed.

(** ** The cache *)

(** What a call that went through a non-empty search has cached when it
    returns. *)
Lemma cached_after_done (co : Collaborators) (env : Env) (query : str)
    (skip : bool) (tr : option str) (inc exc : option (list str)) (app app1 : App)
    (rq : option str) (sr : SearchResult) (srs : list SearchResult) (data : Data) :
  reformulate_query co query = Returns rq ->
  search co rq tr inc exc = Returns (sr :: srs) ->
  search_and_scrape co env query skip tr inc exc app = (Done data, app1) ->
  cache app1 !! rq = Some data.
Proof.
  intros Hrq Hsearch Hrun.
  destruct (cache app !! rq) as [cached|] eqn:Hlookup.
  - unfold search_and_scrape, log in Hrun. rewrite Hrq in Hrun. cbn [cache] in Hrun.
    rewrite Hlookup in Hrun. by injection Hrun as <- <-.
  - rewrite (search_and_scrape_miss co env query skip tr inc exc app rq sr srs
               Hrq Hlookup Hsearch) in Hrun.
    destruct (generate_final_answer co query _); [|discriminate].
    injection Hrun as <- <-. apply lookup_insert_eq.
Qed.

(** ** The compiled results *)


Lemma map_filter_sublist {A B} (g : A -> B) (f : A -> bool) (l : list A) :
  map g (List.filter f l) `sublist_of` map g l.
Proof.
  induction l as [|x l IH]; [constructor|]. simpl.
  destruct (f x); simpl; [by apply sublist_skip | by apply sublist_cons].
Qed.

Lemma map_entry_link (data : gmap str FetchResult) (l : list SearchResult) :
  map c_link (map (entry_of data) l) = map sr_link l.
Proof. induction l as [|x l IH]; [reflexivity|]. simpl. by rewrite IH. Qed.

Lemma map_entry_title (data : gmap str FetchResult) (l : list SearchResult) :
  map c_title (map (entry_of data) l) = map sr_title l.
Proof. induction l as [|x l IH]; [reflexivity|]. simpl. by rewrite IH. Qed.

Lemma filter_true {A} (l : list A) : List.filter (fun _ => true) l = l.
Proof. induction l as [|x l IH]; [reflexivity|]. simpl. by rewrite IH. Qed.

Lemma kept_entry_unrestricted (data : gmap str FetchResult) (sr : SearchResult) :
  restricted (data !! sr_link sr) = false ->
  contains (lit "Access denied by robots.txt") (c_scraped_content (entry_of data sr))
  = false.
Proof.
  unfold restricted, entry_of. cbn [c_scraped_content].
  destruct (data !! sr_link sr) as [r|]; [done|]. intros _. reflexivity.
Qed.

(** The properties of [compile_results] that do not depend on the scrape. *)
Lemma compile_results_shape (skip : bool) (data : gmap str FetchResult)
    (found : list SearchResult) :
  map c_link (compile_results skip data found) `sublist_of` map sr_link found
  /\ (skip = false ->
      map c_link (compile_results skip data found) = map sr_link found
      /\ map c_title (compile_results skip data found) = map sr_title found)
  /\ Forall (fun c => c_source c = netloc (urlparse (c_link c)))
            (compile_results skip data found)
  /\ (skip = true ->
      Forall (fun c => contains (lit "Access denied by robots.txt")
                         (c_scraped_content c) = false)
             (compile_results skip data found)).
Proof.
  rewrite compile_results_filter. split; [|split; [|split]].
  - rewrite map_entry_link. apply map_filter_sublist.
  - intros ->. cbn [andb negb]. by rewrite filter_true, map_entry_link, map_entry_title.
  - apply Forall_forall. intros c Hc. apply list_elem_of_In, in_map_iff in Hc.
    by destruct Hc as (sr & <- & _).
  - intros ->. apply Forall_forall. intros c Hc.
    apply list_elem_of_In, in_map_iff in Hc. destruct Hc as (sr & <- & Hin).
    apply List.filter_In in Hin as [_ Hkept]. cbn [andb] in Hkept.
    apply negb_true_iff in Hkept. by apply kept_entry_unrestricted.
Qed.

(** On a cache miss the results are compiled from the scrape of the links
    found. *)
Lemma done_results (co : Collaborators) (env : Env) (query : str)
    (skip : bool) (tr : option str) (inc exc : option (list str)) (app app1 : App)
    (rq : option str) (found : list SearchResult) (data : Data) :
  reformulate_query co query = Returns rq ->
  cache app !! rq = None ->
  search co rq tr inc exc = Returns found ->
  search_and_scrape co env query skip tr inc exc app = (Done data, app1) ->
  results data
  = compile_results skip
      (fst (scrape_each env (map sr_link found) ∅ (scraper_state app))) found.
Proof.
  intros Hrq Hmiss Hsearch Hrun.
  destruct found as [|sr srs].
  - unfold search_and_scrape, log in Hrun. rewrite Hrq in Hrun. cbn [cache] in Hrun.
    rewrite Hmiss, Hsearch in Hrun. by injection Hrun as <- _.
  - rewrite (search_and_scrape_miss co env query skip tr inc exc app rq sr srs
               Hrq Hmiss Hsearch) in Hrun.
    destruct (generate_final_answer co query _); [|discriminate].
    by injection Hrun as <- _.
Qed.

(** X14: on a cache miss the results follow the search results in order:
    their links are a subsequence of the links found, each source is the
    netloc of its link, with [skip_restricted] off there is exactly one
    entry per search result, and with it on no entry has a content that
    contains ["Access denied by robots.txt"]. *)
Theorem results_follow_search (co : Collaborators) (env : Env) (query : str)
    (skip : bool) (tr : option str) (inc exc : option (list str)) (app app1 : App)
    (rq : option str) (found : list SearchResult) (data : Data) :
  reformulate_query co query = Returns rq ->
  cache app !! rq = None ->
  search co rq tr inc exc = Returns found ->
  search_and_scrape co env query skip tr inc exc app = (Done data, app1) ->
  map c_link (results data) `sublist_of` map sr_link found
  /\ (skip = false ->
      map c_link (results data) = map sr_link found
      /\ map c_title (results data) = map sr_title found)
  /\ Forall (fun c => c_source c = netloc (urlparse (c_link c))) (results data)
  /\ (skip = true ->
      Forall (fun c => contains (lit "Access denied by robots.txt")
                         (c_scraped_content c) = false)
             (results data)).
Proof.
  intros Hrq Hmiss Hsearch Hrun.
  rewrite (done_results co env query skip tr inc exc app app1 rq found data
             Hrq Hmiss Hsearch Hrun).
  apply compile_results_shape.
Qed.

Lemma results_follow_search_witness :
  let found := [hit "Mixed" "http://h.example/"; hit "Other" "http://g.example/x"] in
  let run := search_and_scrape (echo found) world_mixed (lit "q") false None None None
               fresh in
  exists data,
    fst run = Done data
    /\ map c_link (results data) = map sr_link found
    /\ Forall (fun c => c_source c = netloc (urlparse (c_link c))) (results data).
Proof.
  intros found run.
  assert (exists data, fst run = Done data) as [data Hdata]
    by (vm_compute; eexists; reflexivity).
  exists data. split; [exact Hdata|].
  destruct (results_follow_search (echo found) world_mixed (lit "q") false None None None
              fresh (snd run) (Some (lit "q")) found data)
    as (_ & Hall & Hsource & _).
  - reflexivity.
  - reflexivity.
  - reflexivity.
  - rewrite <- Hdata. apply surjective_pairing.
  - split; [by apply Hall | exact Hsource].
Defined.

(** ** Pages that succeed, pages that are denied, pages that raise *)

Lemma fetch_page_first_success (self : WebScraper) (env : Env) (url : str)
    (st : State) (status : N) (text : str) :
  max_retries self <> 0 ->
  (forall h, requests_get env h url (user_agent self) = Response status text) ->
  raise_for_status status = false ->
  exists st' waits,
    fetch_page self env url st = (Ret (Some text), st')
    /\ trace st' = trace st ++ waits ++ [EGet url]
    /\ without_rate_sleeps waits = [].
Proof.
  intros Hretries Hget Hstatus. unfold fetch_page.
  destruct (max_retries self) as [|n]; [done|]. cbn [seq fetch_attempts].
  destruct (respect_rate_limit_events self env url st) as (waits & Hrate & Hwaits & _).
  unfold mbind at 1. unfold M_bind at 1. rewrite Hrate. run.
  rewrite Hget, Hstatus. eexists _, waits. split; [reflexivity|].
  cbn [trace]. by rewrite <- app_assoc.
Qed.

(** One robots read, one request, then extraction. *)
Lemma scrape_page_first_success (self : WebScraper) (env : Env) (url : str) (st : State)
    (status : N) (text : str) :
  enable_js self = false ->
  max_retries self <> 0 ->
  (forall st0, fst (can_fetch self env url st0) = Ret true) ->
  (forall h, requests_get env h url (user_agent self) = Response status text) ->
  raise_for_status status = false ->
  text <> [] ->
  fst (scrape_page self env url st) = extract_content self env text url
  /\ exists added,
       trace (snd (scrape_page self env url st)) = trace st ++ added
       /\ without_rate_sleeps added = [ERobotsRead (robots_url_of url); EGet url].
Proof.
  intros Hjs Hretries Hrobots Hget Hstatus Htext.
  unfold scrape_page, mbind, M_bind.
  destruct (can_fetch_run self env url st) as [allowed Hrun].
  specialize (Hrobots st). rewrite Hrun in Hrobots. injection Hrobots as ->.
  rewrite Hrun, Hjs. cbn [negb]. cbv beta iota.
  destruct (fetch_page_first_success self env url
              {| last_request_time := last_request_time st;
                 clock_reads := clock_reads st;
                 trace := trace st ++ [ERobotsRead (robots_url_of url)] |}
              status text Hretries Hget Hstatus)
    as (st' & waits & -> & Htrace & Hwaits).
  destruct text as [|c text]; [done|]. cbn [falsy default]. unfold lift. cbn [fst snd].
  split; [reflexivity|].
  exists ([ERobotsRead (robots_url_of url)] ++ waits ++ [EGet url]).
  split; [rewrite Htrace; cbn [trace]; by rewrite <- app_assoc|].
  by rewrite !without_rate_sleeps_app, Hwaits.
Qed.

(** X15: when the robots rules allow the URL and the server answers the
    first request with a status outside 400-599 and a non-empty body,
    [scrape_page] (without rendering) is [extract_content] on that body,
    after one robots read and one request, with no backoff sleep. *)
Theorem scrape_page_success (self : WebScraper) (env : Env) (url : str) (st : State)
    (status : N) (text : str) :
  enable_js self = false ->
  max_retries self <> 0 ->
  (forall st0, fst (can_fetch self env url st0) = Ret true) ->
  (forall h, requests_get env h url (user_agent self) = Response status text) ->
  raise_for_status status = false ->
  text <> [] ->
  fst (scrape_page self env url st) = extract_content self env text url
  /\ exists added,
       trace (snd (scrape_page self env url st)) = trace st ++ added
       /\ without_rate_sleeps added = [ERobotsRead (robots_url_of url); EGet url].
Proof. apply scrape_page_first_success. Qed.

Lemma scrape_page_success_witness :
  fst (scrape_page scraper world_mixed (lit "http://h.example/") initial_state)
  = extract_content scraper world_mixed mixed_page (lit "http://h.example/")
  /\ exists added,
       trace (snd (scrape_page scraper world_mixed (lit "http://h.example/")
                     initial_state))
       = trace initial_state ++ added
       /\ without_rate_sleeps added
          = [ERobotsRead (robots_url_of (lit "http://h.example/"));
             EGet (lit "http://h.example/")].
Proof.
  apply (scrape_page_success scraper world_mixed (lit "http://h.example/") initial_state
           200 mixed_page); try reflexivity; try discriminate.
Defined.

Lemma scrape_page_robots_denied (env : Env) (url : str) :
  (forall h, robots_read env h (robots_url_of url) = Returns ()) ->
  (forall h, robots_can_fetch env h (robots_url_of url) (user_agent web_scraper) url
             = Returns false) ->
  forall st,
    fst (scrape_page web_scraper env url st)
    = Ret (sentinel (lit "Access denied by robots.txt")).
Proof.
  intros Hread Hrules st. unfold scrape_page, can_fetch. run.
  by rewrite Hread, Hrules.
Qed.

(** X16: with [skip_restricted] on, a URL that the robots rules deny never
    appears among the results of a call that went through the scrape. *)
Theorem denied_pages_dropped (co : Collaborators) (env : Env) (query : str)
    (tr : option str) (inc exc : option (list str)) (app app1 : App)
    (rq : option str) (found : list SearchResult) (data : Data) (url : str) :
  reformulate_query co query = Returns rq ->
  cache app !! rq = None ->
  search co rq tr inc exc = Returns found ->
  search_and_scrape co env query true tr inc exc app = (Done data, app1) ->
  (forall h, robots_read env h (robots_url_of url) = Returns ()) ->
  (forall h, robots_can_fetch env h (robots_url_of url) (user_agent web_scraper) url
             = Returns false) ->
  Forall (fun c => c_link c <> url) (results data).
Proof.
  intros Hrq Hmiss Hsearch Hrun Hread Hrules.
  rewrite (done_results co env query true tr inc exc app app1 rq found data
             Hrq Hmiss Hsearch Hrun).
  rewrite compile_results_filter.
  apply Forall_forall. intros c Hc.
  apply list_elem_of_In, in_map_iff in Hc. destruct Hc as (kept & <- & Hin).
  apply List.filter_In in Hin as [Hin Hkept]. cbn [andb] in Hkept.
  apply negb_true_iff in Hkept. cbn [entry_of c_link]. intros Hlink.
  rewrite Hlink in Hkept.
  rewrite (scrape_each_always env url _ _ (scrape_page_robots_denied env url Hread Hrules))
    in Hkept; [discriminate|].
  left. rewrite <- Hlink. apply list_elem_of_In, in_map_iff. by exists kept.
Qed.

Lemma denied_pages_dropped_witness :
  let found := [hit "Private" "http://h.example/private"] in
  let run := search_and_scrape (echo found) world_denied (lit "q") true None None None
               fresh in
  exists data,
    fst run = Done data
    /\ Forall (fun c => c_link c <> lit "http://h.example/private") (results data).
Proof.
  intros found run.
  assert (exists data, fst run = Done data) as [data Hdata]
    by (vm_compute; eexists; reflexivity).
  exists data. split; [exact Hdata|].
  apply (denied_pages_dropped (echo found) world_denied (lit "q") None None None
           fresh (snd run) (Some (lit "q")) found data).
  - reflexivity.
  - reflexivity.
  - reflexivity.
  - rewrite <- Hdata. apply surjective_pairing.
  - intros h. reflexivity.
  - intros h. reflexivity.
Defined.



(** X18: a call never replaces or removes a cached answer: the cache after the
    call extends the cache before it, by at most the entry of the
    reformulated query; and a call that ends in the exception of a
    collaborator caches nothing. *)
Theorem cache_grows_only (co : Collaborators) (env : Env) (query : str)
    (skip : bool) (tr : option str) (inc exc : option (list str)) (app : App) :
  let run := search_and_scrape co env query skip tr inc exc app in
  cache app ⊆ cache (snd run)
  /\ size (cache (snd run)) <= S (size (cache app))
  /\ (fst run = Escaped -> cache (snd run) = cache app)
  /\ (forall rq k,
         reformulate_query co query = Returns rq -> k <> rq ->
         cache (snd run) !! k = cache app !! k).
Proof.
  cbv zeta. unfold search_and_scrape, log.
  assert (forall (o : finished Data) (st : State) (made : list call),
             let app' := {| scraper_state := st; cache := cache app; calls := made |} in
             cache app ⊆ cache (snd (o, app'))
             /\ size (cache (snd (o, app'))) <= S (size (cache app))
             /\ (fst (o, app') = Escaped -> cache (snd (o, app')) = cache app)
             /\ (forall rq k,
                    reformulate_query co query = Returns rq -> k <> rq ->
                    cache (snd (o, app')) !! k = cache app !! k)) as Hsame.
  { intros o st made app'. subst app'. cbn [snd fst cache]. split; [reflexivity|].
    split; [lia|]. by split. }
  destruct (reformulate_query co query) as [rq|] eqn:Hrq; cbn [cache]; [|apply Hsame].
  destruct (cache app !! rq) as [cached|] eqn:Hlookup; [apply Hsame|].
  destruct (search co rq tr inc exc) as [[|sr srs]|]; [apply Hsame| |apply Hsame].
  cbn [scraper_state calls].
  destruct (scrape_each env (map sr_link (sr :: srs)) ∅ (scraper_state app))
    as [scraped st'].
  destruct (generate_final_answer co query _) as [answer|]; [|apply Hsame].
  cbn [cache snd fst].
  split; [by apply insert_subseteq|]. split.
  - by rewrite map_size_insert_None.
  - split; [discriminate|].
    intros rq' k [= <-] Hne. by apply lookup_insert_ne.
Qed.

(** ** Keyword options *)

Lemma split_char_segments (c : char) (fuel : nat) :
  forall cur s : str,
    length s <= fuel -> c ∉ cur ->
    Forall (fun seg => c ∉ seg) (split_go fuel [c] cur s)
    /\ length (split_go fuel [c] cur s)
       = S (length (List.filter (fun d => (c =? d)%N) s)).
Proof.
  induction fuel as [|fuel IH]; intros cur s Hlen Hcur.
  - destruct s; [|simpl in Hlen; lia]. simpl. rewrite app_nil_r.
    split; [by repeat constructor | reflexivity].
  - destruct s as [|d s]; [split; [by repeat constructor | reflexivity]|].
    simpl in Hlen. cbn [split_go starts_with List.filter].
    destruct (c =? d)%N eqn:Hcd; cbn [andb length drop].
    + destruct (IH [] s ltac:(lia) ltac:(apply not_elem_of_nil)) as [Hsegs Hcount].
      split; [by constructor | by rewrite <- Hcount].
    + apply IH; [lia|]. apply N.eqb_neq in Hcd.
      intros Hin. apply elem_of_app in Hin as [Hin|Hin]; [done|].
      apply list_elem_of_singleton in Hin. congruence.
Qed.

Lemma rev_is_reverse {A} (l : list A) : rev l = reverse l.
Proof. by rewrite rev_alt. Qed.

Lemma head_lstrip (s : str) (c : char) :
  head (lstrip s) = Some c -> is_space c = false.
Proof.
  induction s as [|d s IH]; [discriminate|]. simpl.
  destruct (is_space d) eqn:Hd; [exact IH|]. by intros [= <-].
Qed.

Lemma lstrip_suffix (s : str) : exists p, s = p ++ lstrip s.
Proof.
  induction s as [|d s [p IH]]; [by exists []|]. simpl.
  destruct (is_space d); [|by exists []].
  exists (d :: p). simpl. by rewrite <- IH.
Qed.

Lemma last_lstrip (s : str) (c : char) :
  last (lstrip s) = Some c -> last s = Some c.
Proof.
  intros Hlast. destruct (lstrip_suffix s) as [p Hp]. rewrite Hp.
  by apply last_app_Some; left.
Qed.

Lemma strip_ends (s : str) (c : char) :
  head (strip s) = Some c \/ last (strip s) = Some c -> is_space c = false.
Proof.
  unfold strip. rewrite !rev_is_reverse, head_reverse, last_reverse.
  intros [Hlast|Hhead].
  - apply last_lstrip in Hlast. rewrite last_reverse in Hlast.
    by apply head_lstrip in Hlast.
  - by apply head_lstrip in Hhead.
Qed.

Lemma elem_of_lstrip (s : str) (c : char) : c ∈ lstrip s -> c ∈ s.
Proof.
  intros Hin. destruct (lstrip_suffix s) as [p Hp]. rewrite Hp.
  apply elem_of_app. by right.
Qed.

Lemma elem_of_strip (s : str) (c : char) : c ∈ strip s -> c ∈ s.
Proof.
  unfold strip. rewrite !rev_is_reverse, elem_of_reverse.
  intros Hin%elem_of_lstrip. rewrite elem_of_reverse in Hin.
  by apply elem_of_lstrip.
Qed.

(** X19: the keyword options: a missing or empty option gives [None]; any
    other gives one keyword per comma plus one, empty keywords included, and
    no keyword contains a comma or begins or ends with whitespace. *)
Theorem parse_keywords_spec (s : str) :
  parse_keywords None = None
  /\ parse_keywords (Some []) = None
  /\ (s <> [] ->
      exists kws,
        parse_keywords (Some s) = Some kws
        /\ length kws = S (commas s)
        /\ Forall (fun k =>
                     (44%N ∉ k)
                     /\ (forall c, head k = Some c \/ last k = Some c ->
                                   is_space c = false))
                  kws).
Proof.
  split; [reflexivity|]. split; [reflexivity|]. intros Hs.
  destruct s as [|d s]; [done|]. eexists. split; [reflexivity|].
  destruct (split_char_segments 44%N (length (d :: s)) [] (d :: s))
    as [Hsegs Hcount]; [lia | apply not_elem_of_nil |].
  split.
  - rewrite length_map. exact Hcount.
  - apply Forall_forall. intros k Hk.
    apply list_elem_of_In, in_map_iff in Hk. destruct Hk as (seg & <- & Hseg).
    split.
    + intros Hin%elem_of_strip.
      eapply Forall_forall in Hsegs; [|apply list_elem_of_In; exact Hseg]. done.
    + intros c Hc. by apply (strip_ends seg).
Qed.

Lemma parse_keywords_spec_witness :
  exists kws,
    parse_keywords (Some (lit "AI, future ,,x")) = Some kws
    /\ length kws = 4
    /\ kws = [lit "AI"; lit "future"; []; lit "x"].
Proof.
  destruct (proj2 (proj2 (parse_keywords_spec (lit "AI, future ,,x"))))
    as (kws & Hkws & Hlen & _); [discriminate|].
  exists kws. split; [exact Hkws|]. split; [exact Hlen|].
  by injection Hkws as <-.
Defined.

(** ** More on summaries and metadata *)

(** X20: when [summarize_text] changes a text, it cuts it at the third
    [". "] and puts ["..."] where the cut is: the summary without its last
    three characters is a prefix of the text, and that prefix is followed in
    the text by [". "]. *)
Theorem summarize_text_prefix (text : str) :
  3 < length (split (lit ". ") text) ->
  exists kept rest,
    text = kept ++ lit ". " ++ rest
    /\ summarize_text text = kept ++ lit "..."
    /\ kept = join (lit ". ") (take 3 (split (lit ". ") text)).
Proof.
  intros Hn. unfold summarize_text.
  apply Nat.ltb_lt in Hn as Hb. rewrite Hb.
  pose proof (join_split (lit ". ") text) as Hjoin.
  set (segments := split (lit ". ") text) in *.
  exists (join (lit ". ") (take 3 segments)), (join (lit ". ") (drop 3 segments)).
  split; [|by split].
  rewrite <- join_app.
  - by rewrite take_drop.
  - intros E. apply (f_equal length) in E. rewrite length_take in E.
    change (length []) with 0 in E. lia.
  - intros E. apply (f_equal length) in E. rewrite length_drop in E.
    change (length []) with 0 in E. lia.
Qed.

Lemma summarize_text_prefix_witness :
  exists kept rest,
    lit "One. Two. Three. Four. Five" = kept ++ lit ". " ++ rest
    /\ summarize_text (lit "One. Two. Three. Four. Five") = kept ++ lit "..."
    /\ kept = join (lit ". ") (take 3 (split (lit ". ") (lit "One. Two. Three. Four. Five"))).
Proof.
  apply (summarize_text_prefix (lit "One. Two. Three. Four. Five")).
  vm_compute. lia.
Defined.

Lemma absent_find (nm : str) (doc : node) : absent nm doc -> find nm doc = None.
Proof.
  intros Habsent. unfold find, find_all. by rewrite filter_none.
Qed.

Lemma absent_find_with_attr (nm key value : str) (doc : node) :
  absent nm doc -> find_with_attr nm key value doc = None.
Proof.
  intros Habsent. unfold find_with_attr. rewrite filter_none; [reflexivity|].
  eapply Forall_impl; [exact Habsent|]. intros d Hd. cbv beta. by rewrite Hd.
Qed.

(** X21: the metadata of a result for a page without metadata: with no
    [meta] tag the description and the keywords are ["No Description"] and
    ["No Keywords"]; with no [title] tag the title is ["No Title"], but with
    a first [title] tag that has no children it is Python's [None]. *)
Theorem metadata_defaults (self : WebScraper) (env : Env) (html url : str)
    (r : FetchResult) :
  extract_content self env html url = Ret r ->
  let doc := cleaned_soup env html in
  (absent (lit "meta") doc ->
   description r = Some (lit "No Description")
   /\ keywords r = Some (lit "No Keywords"))
  /\ (absent (lit "title") doc -> title r = Some (lit "No Title"))
  /\ (forall nm a, find (lit "title") doc = Some (Tag nm a []) -> title r = None).
Proof.
  intros Hr doc. revert Hr.
  unfold extract_content, extract_metadata, mbind, outcome_bind, mret, outcome_ret.
  fold doc.
  destruct (meta_content (lit "description") (lit "No Description") doc)
    as [d|e] eqn:Hd; [|discriminate].
  destruct (meta_content (lit "keywords") (lit "No Keywords") doc)
    as [k|e] eqn:Hk; [|discriminate].
  intros [= <-]. cbn [title description keywords]. split; [|split].
  - intros Hmeta. unfold meta_content in Hd, Hk.
    rewrite absent_find_with_attr in Hd, Hk by done.
    injection Hd as <-. by injection Hk as <-.
  - intros Htitle. by rewrite absent_find.
  - by intros nm a ->.
Qed.

Lemma metadata_defaults_witness :
  exists r,
    extract_content scraper world_untitled untitled_page (lit "http://h.example/") = Ret r
    /\ description r = Some (lit "No Description")
    /\ keywords r = Some (lit "No Keywords")
    /\ title r = None.
Proof.
  eexists. split; [reflexivity|].
  destruct (metadata_defaults scraper world_untitled untitled_page (lit "http://h.example/")
              _ eq_refl) as (Hmeta & _ & Hnone).
  destruct Hmeta as [Hd Hk]; [vm_compute; repeat constructor|].
  split; [exact Hd|]. split; [exact Hk|].
  by apply (Hnone (lit "title") []).
Defined.

(** * The pipeline with its console *)

Import Printing.

(** ** A run that returns *)

Lemma scrape_each_printing_done (con : Console) (env : Env) (urls : list str) :
  forall (data scraped : gmap str FetchResult) (st st' : State),
    scrape_each_printing con env urls data st = (Done scraped, st') ->
    scrape_each env urls data st = (scraped, st').
Proof.
  induction urls as [|url urls IH]; intros data scraped st st'.
  - by intros [= <- <-].
  - cbn [scrape_each_printing scrape_each].
    destruct (scrape_page web_scraper env url st) as [[r|e] st1]; [apply IH|].
    destruct (console_print con _); [apply IH | discriminate].
Qed.

Lemma compile_printing_done (con : Console) (skip : bool)
    (data : gmap str FetchResult) (found : list SearchResult) :
  forall combined,
    compile_printing con skip data found = Done combined ->
    combined = compile_results skip data found.
Proof.
  induction found as [|sr found IH]; intros combined.
  - by intros [= <-].
  - cbn [compile_printing]. unfold compile_results. cbn [flat_map].
    fold (compile_results skip data found).
    destruct (skip && restricted (data !! sr_link sr)).
    + destruct (console_print con _); [apply IH | discriminate].
    + destruct (compile_printing con skip data found) as [l|]; [|discriminate].
      intros [= <-]. cbn [app]. f_equal. by apply IH.
Qed.

(** A run with the console that returns, returns the value and leaves the
    state that the embedding without console computes. *)
Lemma printing_done (con : Console) (co : Collaborators) (env : Env) (query : str)
    (skip : bool) (tr : option str) (inc exc : option (list str))
    (app app1 : App) (data : Data) :
  search_and_scrape_printing con co env query skip tr inc exc app = (Done data, app1) ->
  search_and_scrape co env query skip tr inc exc app = (Done data, app1).
Proof.
  unfold search_and_scrape_printing, search_and_scrape, log.
  destruct (console_print con _); [|discriminate].
  destruct (reformulate_query co query) as [rq|]; [|discriminate].
  destruct (console_print con _); [|discriminate]. cbn [cache].
  destruct (cache app !! rq) as [cached|].
  { destruct (console_print con _); [done | discriminate]. }
  destruct (search co rq tr inc exc) as [[|sr srs]|]; [|  |discriminate].
  { destruct (console_print con _); [done | discriminate]. }
  cbn [scraper_state calls cache].
  destruct (scrape_each_printing con env (map sr_link (sr :: srs)) ∅ (scraper_state app))
    as [[scraped|] st'] eqn:Hscrape; [|discriminate].
  apply scrape_each_printing_done in Hscrape. rewrite Hscrape.
  destruct (compile_printing con skip scraped (sr :: srs)) as [combined|] eqn:Hcompile;
    [|discriminate].
  apply compile_printing_done in Hcompile as ->.
  destruct (console_print con _); [|discriminate].
  by destruct (generate_final_answer co query _).
Qed.

(** ** The cache, seen through the console *)

(** X13: what a call stores under the reformulated query is what a later
    call with that reformulated query returns, provided the three messages
    of the later call are rendered: the later call neither searches nor
    scrapes nor asks for an answer, and its own [skip_restricted], time
    range and keyword filters play no part. *)
Theorem cache_round_trip (con con2 : Console) (co co2 : Collaborators) (env env2 : Env)
    (query query2 : str) (skip skip2 : bool) (tr tr2 : option str)
    (inc exc inc2 exc2 : option (list str)) (app app1 : App)
    (rq : option str) (sr : SearchResult) (srs : list SearchResult) (data : Data) :
  reformulate_query co query = Returns rq ->
  search co rq tr inc exc = Returns (sr :: srs) ->
  search_and_scrape_printing con co env query skip tr inc exc app = (Done data, app1) ->
  reformulate_query co2 query2 = Returns rq ->
  console_print con2 (markup (lit "cyan") (lit "Original Query: " ++ query2))
  = Returns () ->
  console_print con2 (markup (lit "cyan") (lit "Reformulated Query: " ++ shown rq))
  = Returns () ->
  console_print con2 (markup (lit "green") (lit "Loaded cached results for query."))
  = Returns () ->
  search_and_scrape_printing con2 co2 env2 query2 skip2 tr2 inc2 exc2 app1
  = (Done data,
     {| scraper_state := scraper_state app1; cache := cache app1;
        calls := calls app1 ++ [CReformulate query2] |}).
Proof.
  intros Hrq Hsearch Hrun Hrq2 Hprint1 Hprint2 Hprint3.
  apply printing_done in Hrun.
  pose proof (cached_after_done co env query skip tr inc exc app app1 rq sr srs data
                Hrq Hsearch Hrun) as Hcached.
  unfold search_and_scrape_printing, log.
  rewrite Hprint1, Hrq2, Hprint2. cbn [cache]. by rewrite Hcached, Hprint3.
Qed.

Lemma cache_round_trip_witness :
  let found := [hit "Mixed" "http://h.example/"] in
  let first := search_and_scrape_printing strict_console (echo found) world_mixed
                 (lit "q") true None None None fresh in
  exists data,
    fst first = Done data
    /\ search_and_scrape_printing strict_console (echo []) world_down (lit "q") false
         (Some (lit "w")) (Some [lit "k"]) None (snd first)
       = (Done data,
          {| scraper_state := scraper_state (snd first); cache := cache (snd first);
             calls := calls (snd first) ++ [CReformulate (lit "q")] |}).
Proof.
  intros found first.
  assert (exists data, fst first = Done data) as [data Hdata]
    by (vm_compute; eexists; reflexivity).
  exists data. split; [exact Hdata|].
  apply (cache_round_trip strict_console strict_console (echo found) (echo [])
           world_mixed world_down (lit "q") (lit "q")
           true false None (Some (lit "w")) None None (Some [lit "k"]) None
           fresh (snd first) (Some (lit "q")) (hit "Mixed" "http://h.example/") [] data).
  - reflexivity.
  - reflexivity.
  - rewrite <- Hdata. apply surjective_pairing.
  - reflexivity.
  - reflexivity.
  - reflexivity.
  - reflexivity.
Defined.

(** A query with a closing tag of its own stops the call at its first
    message, before the query is reformulated. *)
Example print_of_query_raises :
  search_and_scrape_printing strict_console (echo [hit "Mixed" "http://h.example/"])
    world_mixed (lit "[/b]") true None None None fresh
  = (Escaped, fresh).
Proof. reflexivity. Qed.

(** ** A page that raises, seen through the console *)












(** The message of the [except] branch carries the link: with a link that
    holds a closing tag, the print raises inside the handler and the call
    ends there. *)
Example print_of_link_raises :
  fst (search_and_scrape_printing strict_console
         (echo [hit "Broken" "http://a.example/[/b]"]) world_meta (lit "q")
         true None None None fresh)
  = Escaped.
Proof. vm_compute. reflexivity. Qed.
